(** * Writing Improvement App: the Model and Controller of [main.py]

    A shallow embedding of [WritingAppModel] (the SQLite-backed session
    service), of the part of [WritingAppView] that reads back the rewrite
    text, and of the [WritingAppController] handlers, followed by the
    properties of the specification that concern them.  The second half
    of the file embeds the rest of [main.py] (schema creation, export, the
    other handlers and the event loop) and the handlers and decorators of
    [error_handling.py], with the properties the code itself shows.

    Conventions of the embedding:
    - the [sentences] table is a list of rows in rowid (insertion) order;
    - a Python [str] is a [string]; each character is a code point below 256;
    - [CURRENT_TIMESTAMP] is a parameter [now] of the statement that reads it;
    - [RANDOM()] is a parameter [rand]: [rand i] is the value the i-th
      evaluation returns;
    - an exception is a value of [exn]; code that can raise returns an
      [outcome];
    - a [sqlite3] connection is a pair of the committed table and the
      connection's working table, and [with sqlite3.connect(...) as conn]
      commits when its body returns and rolls back when its body raises;
    - the loop of [import_csv] takes the errors of SQLite as a parameter
      [fault]; the operations of one statement are embedded on the runs in
      which SQLite raises no error, a statement that fails changing nothing. *)

From Stdlib Require Import List String Ascii ZArith Bool Arith Lia Permutation Finite.
From Stdlib Require Import DecimalString.
Import ListNotations.
Local Open Scope string_scope.
Local Open Scope list_scope.
Local Open Scope Z_scope.

(** ** Python strings *)

Module PyStr.

(** [str.isspace] on one code point below 256: TAB..CR, FS..US, SPACE,
    NEL (0x85) and NBSP (0xA0). *)
Definition isspace (c : ascii) : bool :=
  let n := nat_of_ascii c in
  ((9 <=? n) && (n <=? 13) || (28 <=? n) && (n <=? 32)
   || (n =? 133) || (n =? 160))%nat.

Fixpoint lstrip_chars (l : list ascii) : list ascii :=
  match l with
  | [] => []
  | c :: l' => if isspace c then lstrip_chars l' else l
  end.

Definition rstrip_chars (l : list ascii) : list ascii :=
  rev (lstrip_chars (rev l)).

(** [s.strip()] *)
Definition strip (s : string) : string :=
  string_of_list_ascii (rstrip_chars (lstrip_chars (list_ascii_of_string s))).

(** Truth value of a str: [not s] holds exactly for the empty string. *)
Definition truthy (s : string) : bool :=
  match s with EmptyString => false | String _ _ => true end.

End PyStr.

(** ** The [sentences] table

    [CREATE TABLE IF NOT EXISTS sentences (id INTEGER PRIMARY KEY,
     original TEXT NOT NULL, rewrite TEXT, seen BOOLEAN DEFAULT 0,
     created_at TIMESTAMP DEFAULT CURRENT_TIMESTAMP, updated_at TIMESTAMP)] *)

Definition timestamp := string.

Record sentence : Type := mkSentence {
  id : Z;
  original : string;
  rewrite : option string;      (* None is SQL NULL *)
  seen : bool;                  (* 0 / 1 *)
  created_at : timestamp;
  updated_at : option timestamp (* None is SQL NULL *)
}.

Definition table := list sentence.

(** Rowid that [INSERT] gives a new row of an [INTEGER PRIMARY KEY] table:
    one more than the largest rowid in use, 1 for an empty table.  The
    program never chooses a rowid itself, so rowids are positive. *)
Definition max_id (t : table) : Z :=
  fold_right (fun r m => Z.max (id r) m) 0 t.

Definition next_id (t : table) : Z := max_id t + 1.

(** [SELECT id FROM sentences WHERE original = ?] followed by
    [fetchone()]: the first matching rowid, if any. *)
Definition select_id_by_original (s : string) (t : table) : option Z :=
  option_map id (find (fun r => String.eqb (original r) s) t).

(** [INSERT INTO sentences (original) VALUES (?)] *)
Definition insert_original (now : timestamp) (s : string) (t : table) : table :=
  t ++ [mkSentence (next_id t) s None false now None].

(** [UPDATE sentences SET seen = 1, updated_at = CURRENT_TIMESTAMP WHERE id = ?] *)
Definition update_seen (now : timestamp) (i : Z) (t : table) : table :=
  map (fun r => if id r =? i
                then mkSentence (id r) (original r) (rewrite r) true
                                (created_at r) (Some now)
                else r) t.

(** [UPDATE sentences SET rewrite = ?, updated_at = CURRENT_TIMESTAMP WHERE id = ?] *)
Definition update_rewrite (now : timestamp) (i : Z) (text : string) (t : table)
  : table :=
  map (fun r => if id r =? i
                then mkSentence (id r) (original r) (Some text) (seen r)
                                (created_at r) (Some now)
                else r) t.

(** [UPDATE sentences SET seen = 0, rewrite = NULL, updated_at = NULL] *)
Definition update_reset (t : table) : table :=
  map (fun r => mkSentence (id r) (original r) None false (created_at r) None) t.

(** [SELECT COUNT( * ) FROM sentences] *)
Definition count_all (t : table) : Z := Z.of_nat (List.length t).

(** [SELECT COUNT( * ) FROM sentences WHERE rewrite IS NOT NULL] *)
Definition is_not_null {A} (o : option A) : bool :=
  match o with Some _ => true | None => false end.

Definition count_rewritten (t : table) : Z :=
  Z.of_nat (List.length (filter (fun r => is_not_null (rewrite r)) t)).

(** [SELECT id, original FROM sentences WHERE seen = 0] *)
Definition select_unseen (t : table) : list (Z * string) :=
  map (fun r => (id r, original r)) (filter (fun r => negb (seen r)) t).

(** [ORDER BY RANDOM()]: every selected row is given the next value of
    [RANDOM()] as its sort key and the rows are sorted by ascending key.
    The sort is an insertion sort that keeps rows of equal key in their
    table order. *)
Fixpoint insert_by_key {A} (x : Z * A) (l : list (Z * A)) : list (Z * A) :=
  match l with
  | [] => [x]
  | y :: l' => if fst x <=? fst y then x :: l else y :: insert_by_key x l'
  end.

Definition order_by_key {A} (l : list (Z * A)) : list (Z * A) :=
  fold_right insert_by_key [] l.

Definition random_keys (rand : nat -> Z) (n : nat) : list Z :=
  map rand (seq 0 n).

Definition order_by_random {A} (rand : nat -> Z) (rows : list A) : list A :=
  map snd (order_by_key (combine (random_keys rand (List.length rows)) rows)).

(** [LIMIT 1] followed by [fetchone()] *)
Definition limit_1 {A} (rows : list A) : option A := hd_error rows.

(** ** [WritingAppModel] *)

(** [get_random_unseen_sentence]:
    [SELECT id, original FROM sentences WHERE seen = 0
     ORDER BY RANDOM() LIMIT 1]. *)
Definition get_random_unseen_sentence (rand : nat -> Z) (db : table)
  : option (Z * string) :=
  limit_1 (order_by_random rand (select_unseen db)).

(** [mark_sentence_seen] *)
Definition mark_sentence_seen (now : timestamp) (sentence_id : Z) (db : table)
  : table :=
  update_seen now sentence_id db.

(** [save_rewrite] *)
Definition save_rewrite (now : timestamp) (sentence_id : Z) (text : string)
  (db : table) : table :=
  update_rewrite now sentence_id text db.

(** [get_progress_stats]: [return total, completed]. *)
Definition get_progress_stats (db : table) : Z * Z :=
  let total := count_all db in
  let completed := count_rewritten db in
  (total, completed).

(** [reset_session] *)
Definition reset_session (db : table) : table := update_reset db.

(** ** Exceptions *)

Inductive exn : Type :=
| ValueError (msg : string)
| ParserError (msg : string)        (* raised by [pd.read_csv] *)
| OperationalError (msg : string)   (* raised by [sqlite3] *)
| Exception (msg : string).

(** [str(e)] *)
Definition str_exn (e : exn) : string :=
  match e with
  | ValueError msg | ParserError msg | OperationalError msg | Exception msg => msg
  end.

Inductive outcome (A : Type) : Type :=
| Return (a : A)
| Raise (e : exn).
Arguments Return {A} a.
Arguments Raise {A} e.

(** ** Connections

    [sqlite3.connect] opens a connection on the database file.  Statements
    that write run in a transaction of the connection: they change the
    connection's working table, and the file changes on [commit]. *)

Record connection : Type := mkConn {
  committed : table;   (* the database file *)
  working : table      (* what the statements of this connection see *)
}.

Definition connect (db : table) : connection := mkConn db db.

(** Code that runs on a connection and may raise. *)
Definition Sql (A : Type) : Type := connection -> outcome A * connection.

Definition ret {A} (a : A) : Sql A := fun c => (Return a, c).

Definition raise {A} (e : exn) : Sql A := fun c => (Raise e, c).

Definition bind {A B} (m : Sql A) (k : A -> Sql B) : Sql B :=
  fun c => match m c with
           | (Return a, c') => k a c'
           | (Raise e, c') => (Raise e, c')
           end.

Notation "x <- m ;; k" := (bind m (fun x => k))
  (at level 61, m at next level, right associativity).
Notation "m ;;; k" := (bind m (fun _ => k))
  (at level 61, right associativity).

(** [cursor.execute] of a statement that reads. *)
Definition query {A} (q : table -> A) : Sql A :=
  fun c => (Return (q (working c)), c).

(** [cursor.execute] of a statement that writes. *)
Definition execute (u : table -> table) : Sql unit :=
  fun c => (Return tt, mkConn (committed c) (u (working c))).

(** [conn.commit()] *)
Definition commit : Sql unit :=
  fun c => (Return tt, mkConn (working c) (working c)).

(** [conn.rollback()] *)
Definition rollback : Sql unit :=
  fun c => (Return tt, mkConn (committed c) (committed c)).

(** [with sqlite3.connect(self.db_path) as conn: body]: when the body
    returns the transaction is committed, when it raises the transaction is
    rolled back and the exception propagates.  The result is the outcome of
    the body and the database file afterwards. *)
Definition with_connection {A} (db : table) (body : Sql A) : outcome A * table :=
  match body (connect db) with
  | (Return a, c) => (Return a, committed (snd (commit c)))
  | (Raise e, c) => (Raise e, committed (snd (rollback c)))
  end.

(** ** Data frames

    What [pd.read_csv] returns: the column labels of the header and the
    rows of cells.  A cell of a text column is a str, or the float NaN
    where the file has an empty field: [read_csv] reads an empty field as a
    missing value, and leaves out the lines of the file that are blank
    altogether.  Columns that [read_csv] reads as numbers are not
    embedded. *)

Inductive cell : Type :=
| CText (s : string)
| CNaN.

(** [str(v)] of a cell: the text itself, and [nan] for NaN. *)
Definition py_str (v : cell) : string :=
  match v with
  | CText s => s
  | CNaN => "nan"
  end.

Record DataFrame : Type := mkFrame {
  columns : list string;
  rows : list (list cell)
}.

(** ['sentence' in df.columns] *)
Definition has_column (name : string) (df : DataFrame) : bool :=
  existsb (String.eqb name) (columns df).

Fixpoint column_index (name : string) (cols : list string) : option nat :=
  match cols with
  | [] => None
  | c :: cols' => if String.eqb c name then Some O
                  else option_map S (column_index name cols')
  end.

(** [row[name]]; a row shorter than the header is padded with NaN. *)
Definition row_get (df : DataFrame) (name : string) (row : list cell) : cell :=
  match column_index name (columns df) with
  | Some i => nth i row CNaN
  | None => CNaN
  end.

(** ** [WritingAppModel.import_csv] *)

(** The body of [for _, row in df.iterrows()], on the values
    [row['sentence']] of the rows still to visit.  [k] is the index of the
    row, [fault k] the exception SQLite raises while the statements of row
    [k] run, if it raises one, and [now k] the clock when row [k] is
    inserted. *)
Fixpoint import_rows (fault : nat -> option exn) (now : nat -> timestamp)
  (k : nat) (values : list cell) (imported_count : Z) : Sql Z :=
  match values with
  | [] => ret imported_count
  | v :: rest =>
      let sentence := PyStr.strip (py_str v) in
      if negb (PyStr.truthy sentence) then
        import_rows fault now (S k) rest imported_count
      else
        match fault k with
        | Some e => raise e
        | None =>
            found <- query (select_id_by_original sentence) ;;
            match found with
            | None =>
                execute (insert_original (now k) sentence) ;;;
                import_rows fault now (S k) rest (imported_count + 1)
            | Some _ =>
                import_rows fault now (S k) rest imported_count
            end
        end
  end.

(** The body of the [try] block. *)
Definition import_csv_body (src : outcome DataFrame)
  (fault : nat -> option exn) (now : nat -> timestamp) (db : table)
  : outcome Z * table :=
  match src with
  | Raise e => (Raise e, db)
  | Return df =>
      if negb (has_column "sentence" df) then
        (Raise (ValueError "CSV must contain a 'sentence' column"), db)
      else
        with_connection db
          (imported_count <-
             import_rows fault now O
               (map (row_get df "sentence") (rows df)) 0 ;;
           commit ;;;
           ret imported_count)
  end.

(** [import_csv]: [src] is what [pd.read_csv(file_path)] returns or raises. *)
Definition import_csv (src : outcome DataFrame)
  (fault : nat -> option exn) (now : nat -> timestamp) (db : table)
  : outcome Z * table :=
  match import_csv_body src fault now db with
  | (Return imported_count, db') => (Return imported_count, db')
  | (Raise e, db') =>
      (Raise (Exception ("Failed to import CSV: " ++ str_exn e)%string), db')
  end.

Definition no_fault : nat -> option exn := fun _ => None.

(** ** [WritingAppView]

    Of the widgets the embedding keeps what the controller reads and
    writes: the contents of the two text areas, the arguments of the last
    [update_progress] call and the message boxes shown so far. *)

Inductive dialog : Type :=
| ShowInfo (title message : string)
| ShowError (title message : string).

Record View : Type := mkView {
  sentence_text : string;
  rewrite_text : string;
  progress : Z * Z;          (* (completed, total) as passed to update_progress *)
  dialogs : list dialog
}.

Definition set_sentence_text (text : string) (v : View) : View :=
  mkView text (rewrite_text v) (progress v) (dialogs v).

(** [self.rewrite_text.get(1.0, tk.END).strip()]: a Tk text widget returns
    its contents followed by a newline. *)
Definition get_rewrite_text (v : View) : string :=
  PyStr.strip (rewrite_text v ++ String "010"%char EmptyString)%string.

Definition clear_rewrite_text (v : View) : View :=
  mkView (sentence_text v) EmptyString (progress v) (dialogs v).

Definition update_progress (completed total : Z) (v : View) : View :=
  mkView (sentence_text v) (rewrite_text v) (completed, total) (dialogs v).

Definition show_error (title message : string) (v : View) : View :=
  mkView (sentence_text v) (rewrite_text v) (progress v)
         (dialogs v ++ [ShowError title message]).

(** ** [WritingAppController] *)

Record Controller : Type := mkController {
  model : table;
  view : View;
  current_sentence_id : option Z;
  current_sentence_text : option string
}.

(** Truth value of [self.current_sentence_id]: [None] and [0] are false. *)
Definition id_truthy (o : option Z) : bool :=
  match o with
  | Some i => negb (i =? 0)
  | None => false
  end.

Definition _load_next_sentence (rand : nat -> Z) (app : Controller)
  : Controller :=
  let sentence_data := get_random_unseen_sentence rand (model app) in
  let app1 :=
    match sentence_data with
    | Some (i, text) =>
        mkController (model app) (set_sentence_text text (view app))
                     (Some i) (Some text)
    | None =>
        mkController (model app)
          (set_sentence_text
             "No more sentences to practice! Import more or reset the session."
             (view app))
          None None
    end in
  let '(total, completed) := get_progress_stats (model app1) in
  mkController (model app1) (update_progress completed total (view app1))
               (current_sentence_id app1) (current_sentence_text app1).

(** [_handle_save]; [now_save] and [now_seen] are the clock at the two
    updates. *)
Definition _handle_save (now_save now_seen : timestamp) (rand : nat -> Z)
  (app : Controller) : Controller :=
  if negb (id_truthy (current_sentence_id app)) then app
  else
    let text := get_rewrite_text (view app) in
    if negb (PyStr.truthy text) then
      mkController (model app)
        (show_error "Error" "Please write something before saving." (view app))
        (current_sentence_id app) (current_sentence_text app)
    else
      match current_sentence_id app with
      | None => app
      | Some i =>
          let db1 := save_rewrite now_save i text (model app) in
          let db2 := mark_sentence_seen now_seen i db1 in
          _load_next_sentence rand
            (mkController db2 (clear_rewrite_text (view app))
                          (current_sentence_id app) (current_sentence_text app))
      end.

Definition _handle_skip (now : timestamp) (rand : nat -> Z) (app : Controller)
  : Controller :=
  if id_truthy (current_sentence_id app) then
    match current_sentence_id app with
    | None => app
    | Some i =>
        _load_next_sentence rand
          (mkController (mark_sentence_seen now i (model app))
                        (clear_rewrite_text (view app))
                        (current_sentence_id app) (current_sentence_text app))
    end
  else app.

(** [_handle_reset]; [confirmed] is the answer to [messagebox.askyesno]. *)
Definition _handle_reset (confirmed : bool) (rand : nat -> Z) (app : Controller)
  : Controller :=
  if confirmed then
    _load_next_sentence rand
      (mkController (reset_session (model app)) (clear_rewrite_text (view app))
                    (current_sentence_id app) (current_sentence_text app))
  else app.

(** ** Runs of the model

    The operations of the session service that a run may interleave. *)

Inductive op : Type :=
| OpImport (src : outcome DataFrame) (fault : nat -> option exn)
           (now : nat -> timestamp)
| OpSave (now : timestamp) (sentence_id : Z) (text : string)
| OpMarkSeen (now : timestamp) (sentence_id : Z)
| OpReset.

Definition step (o : op) (db : table) : table :=
  match o with
  | OpImport src fault now => snd (import_csv src fault now db)
  | OpSave now i text => save_rewrite now i text db
  | OpMarkSeen now i => mark_sentence_seen now i db
  | OpReset => reset_session db
  end.

Definition run (ops : list op) (db : table) : table :=
  fold_left (fun d o => step o d) ops db.

Definition is_reset (o : op) : bool :=
  match o with OpReset => true | _ => false end.

(** ** What the specification asks of import

    A second definition, written from the words of the specification and
    not from the code, to compare [import_csv] with: trim each value of the
    text column, skip a row whose value is blank, insert a row only when no
    record has an equal original, and count the rows inserted.  [texts] are
    the fields of the column as the source file has them, so an empty field
    is the empty string. *)

Fixpoint spec_import_sentences (now : nat -> timestamp) (k : nat)
  (texts : list string) (db : table) : Z * table :=
  match texts with
  | [] => (0, db)
  | v :: rest =>
      let s := PyStr.strip v in
      if String.eqb s EmptyString then spec_import_sentences now (S k) rest db
      else if existsb (fun r => String.eqb (original r) s) db
           then spec_import_sentences now (S k) rest db
           else let '(n, db') :=
                  spec_import_sentences now (S k) rest
                    (insert_original (now k) s db) in
                (n + 1, db')
  end.

(** The field of the source file behind a cell. *)
Definition field_text (v : cell) : string :=
  match v with
  | CText s => s
  | CNaN => EmptyString
  end.

Definition is_text (v : cell) : bool :=
  match v with CText _ => true | CNaN => false end.

(** ** The draws of [ORDER BY RANDOM()]

    Only the order of the keys matters to the sort.  When the keys of [n]
    rows are independent and pairwise different, each of the [n!] orders
    is equally likely.  [rankings n] lists these orders, an order being the
    list of the ranks [0 .. n-1] that the rows receive, row by row: rank 0
    is put at any of the positions of an order of the other rows. *)

Fixpoint insert_at {A} (p : nat) (x : A) (l : list A) : list A :=
  match p, l with
  | S p', y :: l' => y :: insert_at p' x l'
  | _, _ => x :: l
  end.

Fixpoint rankings (n : nat) : list (list nat) :=
  match n with
  | O => [[]]
  | S n' =>
      flat_map (fun p => map (fun ks => insert_at p O (map S ks)) (rankings n'))
               (seq 0 (S n'))
  end.

(** The keys of a ranking, as a source of random keys. *)
Definition keys_of_ranking (ks : list nat) : nat -> Z :=
  fun i => Z.of_nat (nth i ks O).

(** [o] is the row [c]. *)
Definition returns (c : Z * string) (o : option (Z * string)) : bool :=
  match o with
  | Some (i, text) => (i =? fst c) && String.eqb text (snd c)
  | None => false
  end.

(** ** Predicates used in the statements *)

(** A row the import adds: a fresh rowid, never seen, no rewrite. *)
Definition fresh_above (m : Z) (r : sentence) : Prop :=
  m < id r /\ rewrite r = None /\ seen r = false /\ updated_at r = None /\
  PyStr.truthy (original r) = true.

(** Record [i] exists and every record of id [i] is seen. *)
Definition seen_for_good (i : Z) (db : table) : Prop :=
  In i (map id db) /\ forall r, In r db -> id r = i -> seen r = true.

(** ** Sample data *)

(** A source of random keys that gives position [p] the key 0 and every
    other position the key 1. *)
Definition favour (p : nat) : nat -> Z := fun i => if Nat.eqb i p then 0 else 1.

Definition sample_clock : nat -> timestamp := fun _ => "2024-01-01 00:00:00".

(** The file
<<
topic,sentence
a,The cat sat.
b,
c,The cat sat.
d,Dogs run fast.
>>
    as [pd.read_csv] returns it. *)
Definition blank_field_frame : DataFrame :=
  mkFrame ["topic"; "sentence"]
    [[CText "a"; CText "The cat sat."];
     [CText "b"; CNaN];
     [CText "c"; CText "The cat sat."];
     [CText "d"; CText "Dogs run fast."]].

(** The file
<<
sentence
The cat sat.

The cat sat.
Dogs run fast.
>>
    as [pd.read_csv] returns it: the blank line is not a row of the frame. *)
Definition blank_line_frame : DataFrame :=
  mkFrame ["sentence"]
    [[CText "The cat sat."]; [CText "The cat sat."]; [CText "Dogs run fast."]].

Definition sample_row : sentence :=
  mkSentence 1 "The cat sat." None false "2024-01-01 00:00:00" None.

(** * The rest of [main.py] *)

(** ** [WritingAppModel._init_database]

    The database file is [None] while it has no [sentences] table.
    [CREATE TABLE IF NOT EXISTS] creates the empty table then and leaves an
    existing table as it is. *)
Definition _init_database (file : option table) : table :=
  match file with
  | Some t => t
  | None => []
  end.

(** ** [WritingAppModel.export_rewrites_to_csv]

    [SELECT id, original, rewrite, created_at, updated_at FROM sentences
     WHERE rewrite IS NOT NULL], written by [to_csv(file_path, index=False)]:
    the header line, then one line for each selected row, in table order. *)

Record export_row : Type := mkExportRow {
  x_id : Z;
  x_original : string;
  x_rewrite : string;
  x_created_at : timestamp;
  x_updated_at : option timestamp
}.

Record csv_file : Type := mkCsv {
  csv_header : list string;
  csv_lines : list export_row
}.

Definition export_columns : list string :=
  ["id"; "original"; "rewrite"; "created_at"; "updated_at"].

Definition select_rewritten (t : table) : list export_row :=
  flat_map (fun r => match rewrite r with
                     | Some text =>
                         [mkExportRow (id r) (original r) text (created_at r)
                                      (updated_at r)]
                     | None => []
                     end) t.

Definition export_rewrites_to_csv (db : table) : csv_file :=
  mkCsv export_columns (select_rewritten db).

(** ** The other handlers of [WritingAppController] *)

Definition show_message (title message : string) (v : View) : View :=
  mkView (sentence_text v) (rewrite_text v) (progress v)
         (dialogs v ++ [ShowInfo title message]).

(** [str(n)] of an int. *)
Definition str_int (n : Z) : string := NilZero.string_of_int (Z.to_int n).

(** [_handle_import]; [file_path] is the answer of the file dialog, empty
    when the user cancels, and [src] what [pd.read_csv(file_path)] returns
    or raises. *)
Definition _handle_import (file_path : string) (src : outcome DataFrame)
  (fault : nat -> option exn) (now : nat -> timestamp) (rand : nat -> Z)
  (app : Controller) : Controller :=
  if PyStr.truthy file_path then
    match import_csv src fault now (model app) with
    | (Return imported_count, db') =>
        _load_next_sentence rand
          (mkController db'
             (show_message "Import Successful"
                ("Successfully imported " ++ str_int imported_count
                 ++ " sentences.")%string
                (view app))
             (current_sentence_id app) (current_sentence_text app))
    | (Raise e, db') =>
        mkController db' (show_error "Import Failed" (str_exn e) (view app))
                     (current_sentence_id app) (current_sentence_text app)
    end
  else app.

(** [_handle_export]; [io] is the exception that writing the file raises,
    if it raises one.  The result is the controller and the file written,
    if one is. *)
Definition _handle_export (file_path : string) (io : option exn)
  (app : Controller) : Controller * option (string * csv_file) :=
  if PyStr.truthy file_path then
    match io with
    | None =>
        (mkController (model app)
           (show_message "Export Successful"
              ("Rewrites exported to " ++ file_path)%string (view app))
           (current_sentence_id app) (current_sentence_text app),
         Some (file_path, export_rewrites_to_csv (model app)))
    | Some e =>
        (mkController (model app)
           (show_error "Export Failed" (str_exn e) (view app))
           (current_sentence_id app) (current_sentence_text app),
         None)
    end
  else (app, None).

(** The view as [_create_widgets] leaves it: empty text areas and the label
    [Progress: 0/0]. *)
Definition new_view : View := mkView EmptyString EmptyString (0, 0) [].

(** [WritingAppController.__init__]: the model on the database file, a new
    view, no current sentence, then [_load_next_sentence]. *)
Definition controller_init (file : option table) (rand : nat -> Z)
  : Controller :=
  _load_next_sentence rand
    (mkController (_init_database file) new_view None None).

(** What the main loop dispatches: the clicks on the five buttons, each with
    what its handler reads from the outside, and the user's edits of the
    rewrite text area. *)
Inductive event : Type :=
| ClickImport (file_path : string) (src : outcome DataFrame)
              (fault : nat -> option exn) (now : nat -> timestamp)
              (rand : nat -> Z)
| ClickSave (now_save now_seen : timestamp) (rand : nat -> Z)
| ClickSkip (now : timestamp) (rand : nat -> Z)
| ClickExport (file_path : string) (io : option exn)
| ClickReset (confirmed : bool) (rand : nat -> Z)
| EditRewrite (text : string).

Definition dispatch (ev : event) (app : Controller) : Controller :=
  match ev with
  | ClickImport file_path src fault now rand =>
      _handle_import file_path src fault now rand app
  | ClickSave now_save now_seen rand => _handle_save now_save now_seen rand app
  | ClickSkip now rand => _handle_skip now rand app
  | ClickExport file_path io => fst (_handle_export file_path io app)
  | ClickReset confirmed rand => _handle_reset confirmed rand app
  | EditRewrite text =>
      mkController (model app)
        (mkView (sentence_text (view app)) text (progress (view app))
                (dialogs (view app)))
        (current_sentence_id app) (current_sentence_text app)
  end.

(** [run]: the events of [mainloop], in order. *)
Definition mainloop (events : list event) (app : Controller) : Controller :=
  fold_left (fun a ev => dispatch ev a) events app.

(** ** Invariants of the store and of the controller *)

(** Rowids are pairwise different and positive, and a record with a rewrite
    is seen. *)
Definition store_ok (db : table) : Prop :=
  NoDup (map id db) /\
  Forall (fun i => 0 < i) (map id db) /\
  (forall r, In r db -> rewrite r <> None -> seen r = true).

Definition no_more_sentences : string :=
  "No more sentences to practice! Import more or reset the session.".

(** The current sentence is an unseen record of the store, shown with its
    original; there is none exactly when every record is seen. *)
Definition current_ok (app : Controller) : Prop :=
  match current_sentence_id app, current_sentence_text app with
  | Some i, Some text =>
      sentence_text (view app) = text /\
      exists r, In r (model app) /\ id r = i /\ original r = text /\
                seen r = false
  | None, None =>
      sentence_text (view app) = no_more_sentences /\
      forall r, In r (model app) -> seen r = true
  | _, _ => False
  end.

(** The progress label shows the statistics of the store. *)
Definition progress_ok (app : Controller) : Prop :=
  progress (view app) = (count_rewritten (model app), count_all (model app)).

(** The records of a store without what a session changes. *)
Definition identity_of (r : sentence) : Z * string * timestamp :=
  (id r, original r, created_at r).

Definition has_original (s : string) (t : table) : bool :=
  existsb (fun r => String.eqb (original r) s) t.

(** A controller at work on [sample_row], with a rewrite typed in. *)
Definition sample_app : Controller :=
  mkController [sample_row]
    (mkView "The cat sat." " A cat sat. " (0, 1) [])
    (Some 1) (Some "The cat sat.").

(** The rowids 1, 2, ..., n, in this order. *)
Definition consecutive_ids (db : table) : Prop :=
  map id db = map Z.of_nat (seq 1 (List.length db)).

Definition is_import (o : op) : bool :=
  match o with OpImport _ _ _ => true | _ => false end.

(** An original as [import_csv] stores it: not empty and trimmed. *)
Definition trimmed (s : string) : Prop :=
  PyStr.truthy s = true /\ PyStr.strip s = s.

(** * [error_handling.py] *)

Module ErrorHandler.

(** The classes of exception that the handlers tell apart. *)
Inductive exc_class : Type :=
| ClsOperationalError     (* sqlite3.OperationalError *)
| ClsFileNotFoundError
| ClsPermissionError
| ClsIsADirectoryError
| ClsOther.

(** An exception: its class and [str(error)]. *)
Record py_error : Type := mkError {
  cls : exc_class;
  text : string
}.

Fixpoint starts_with (needle hay : string) : bool :=
  match needle, hay with
  | EmptyString, _ => true
  | String a needle', String b hay' => Ascii.eqb a b && starts_with needle' hay'
  | String _ _, EmptyString => false
  end.

(** [needle in hay] on two strs. *)
Fixpoint contains (needle hay : string) : bool :=
  starts_with needle hay
  || match hay with
     | EmptyString => false
     | String _ hay' => contains needle hay'
     end.

(** The handlers print one line and return the message for the user: the
    result is the pair of the line printed and the message. *)

Definition handle_database_error (error : py_error) (operation : string)
  : string * string :=
  let error_msg :=
    ("Database error during " ++ operation ++ ": " ++ text error)%string in
  let printed := ("ERROR: " ++ error_msg)%string in
  let fallback := ("Database operation failed: " ++ text error)%string in
  (printed,
   match cls error with
   | ClsOperationalError =>
       if contains "no such table" (text error) then
         "Database structure error. Please restart the application."
       else if contains "database is locked" (text error) then
         "Database is busy. Please try again."
       else fallback
   | _ => fallback
   end).

Definition handle_file_error (error : py_error) (operation filename : string)
  : string * string :=
  let error_msg := ("File error during " ++ operation)%string in
  let error_msg :=
    if PyStr.truthy filename
    then (error_msg ++ " with file '" ++ filename ++ "'")%string
    else error_msg in
  let error_msg := (error_msg ++ ": " ++ text error)%string in
  let printed := ("ERROR: " ++ error_msg)%string in
  (printed,
   match cls error with
   | ClsFileNotFoundError => ("File not found: " ++ filename)%string
   | ClsPermissionError => ("Permission denied for file: " ++ filename)%string
   | ClsIsADirectoryError =>
       ("Expected a file but found a directory: " ++ filename)%string
   | _ => ("File operation failed: " ++ text error)%string
   end).

Definition handle_import_error (error : py_error) (operation : string)
  : string * string :=
  let error_msg :=
    ("Import error during " ++ operation ++ ": " ++ text error)%string in
  let printed := ("ERROR: " ++ error_msg)%string in
  (printed,
   if contains "pandas" (text error) then
     "Pandas library not available. CSV import/export features disabled."
   else ("Import operation failed: " ++ text error)%string).

(** *** The decorators *)

(** A positional argument: a [tk.Tk] or [tk.Toplevel] window, or anything
    else. *)
Inductive argument : Type :=
| ArgWindow (name : string)
| ArgOther.

Inductive call_result (A : Type) : Type :=
| Returns (a : A)
| Raises (e : py_error).
Arguments Returns {A} a.
Arguments Raises {A} e.

(** What a wrapped call does: the value it returns ([None] of Python is
    [None]), the lines it prints and the error dialogs it shows, each with
    its parent window, title and message. *)
Record wrapped (A : Type) : Type := mkWrapped {
  returned : option A;
  printed_lines : list string;
  error_dialogs : list (string * string * string)
}.
Arguments mkWrapped {A}.
Arguments returned {A}.
Arguments printed_lines {A}.
Arguments error_dialogs {A}.

(** [for arg in args: if isinstance(arg, tk.Tk) or ...: show; break] *)
Fixpoint show_on_first_window (title message : string) (args : list argument)
  : list (string * string * string) :=
  match args with
  | [] => []
  | ArgWindow w :: _ => [(w, title, message)]
  | ArgOther :: rest => show_on_first_window title message rest
  end.

(** The wrapper that [safe_database_operation(func)] returns, called with
    the positional arguments [args]; [func_name] is [func.__name__] and
    [call] what the call of [func] with the same arguments does. *)
Definition safe_database_operation {A} (func_name : string)
  (call : call_result A) (args : list argument) : wrapped A :=
  match call with
  | Returns a => mkWrapped (Some a) [] []
  | Raises e =>
      let '(line, error_msg) := handle_database_error e func_name in
      mkWrapped None [line]
                (show_on_first_window "Database Error" error_msg args)
  end.

(** [kwargs.get(key, default)] *)
Fixpoint kwargs_get (key : string) (kwargs : list (string * string))
  (default : string) : string :=
  match kwargs with
  | [] => default
  | (k, v) :: rest => if String.eqb k key then v else kwargs_get key rest default
  end.

(** The wrapper that [safe_file_operation(func)] returns, called with the
    positional arguments [args] and the keyword arguments [kwargs]. *)
Definition safe_file_operation {A} (func_name : string)
  (call : call_result A) (args : list argument)
  (kwargs : list (string * string)) : wrapped A :=
  match call with
  | Returns a => mkWrapped (Some a) [] []
  | Raises e =>
      let filename :=
        kwargs_get "filename" kwargs (kwargs_get "file_path" kwargs EmptyString) in
      let '(line, error_msg) := handle_file_error e func_name filename in
      mkWrapped None [line] (show_on_first_window "File Error" error_msg args)
  end.

End ErrorHandler.

(** * Properties *)

(** ** The table statements *)

Section TableFacts.

Lemma update_seen_length now i t :
  List.length (update_seen now i t) = List.length t.
Proof. apply length_map. Qed.

Lemma update_rewrite_length now i text t :
  List.length (update_rewrite now i text t) = List.length t.
Proof. apply length_map. Qed.

Lemma update_reset_length t : List.length (update_reset t) = List.length t.
Proof. apply length_map. Qed.

Lemma update_seen_ids now i t : map id (update_seen now i t) = map id t.
Proof.
  unfold update_seen. rewrite map_map. apply map_ext.
  intros r. destruct (id r =? i); reflexivity.
Qed.

Lemma update_rewrite_ids now i text t :
  map id (update_rewrite now i text t) = map id t.
Proof.
  unfold update_rewrite. rewrite map_map. apply map_ext.
  intros r. destruct (id r =? i); reflexivity.
Qed.

Lemma update_reset_ids t : map id (update_reset t) = map id t.
Proof. unfold update_reset. rewrite map_map. reflexivity. Qed.

Lemma max_id_ids t1 t2 : map id t1 = map id t2 -> max_id t1 = max_id t2.
Proof.
  revert t2. induction t1 as [|r t1 IH]; intros [|r2 t2] H;
    simpl in *; try discriminate; [reflexivity|].
  injection H as Hr Ht. rewrite Hr, (IH _ Ht). reflexivity.
Qed.

Lemma max_id_nonneg t : 0 <= max_id t.
Proof. induction t as [|r t IH]; simpl; lia. Qed.

Lemma max_id_bound t r : In r t -> id r <= max_id t.
Proof.
  induction t as [|r' t IH]; simpl; [tauto|].
  intros [->|H]; [lia|]. specialize (IH H). lia.
Qed.

Lemma max_id_app t1 t2 : max_id (t1 ++ t2) = Z.max (max_id t1) (max_id t2).
Proof.
  induction t1 as [|r t1 IH]; simpl.
  - pose proof (max_id_nonneg t2). lia.
  - rewrite IH. lia.
Qed.

Lemma count_rewritten_bounds t : 0 <= count_rewritten t <= count_all t.
Proof.
  unfold count_rewritten, count_all. split; [lia|].
  apply inj_le, filter_length_le.
Qed.

Lemma count_rewritten_reset t : count_rewritten (update_reset t) = 0.
Proof.
  unfold count_rewritten, update_reset.
  induction t as [|r t IH]; simpl; [reflexivity|exact IH].
Qed.

Lemma select_unseen_reset t :
  select_unseen (update_reset t) = map (fun r => (id r, original r)) t.
Proof.
  unfold select_unseen, update_reset.
  induction t as [|r t IH]; simpl; [reflexivity|]. now rewrite IH.
Qed.

Lemma select_unseen_In i text t :
  In (i, text) (select_unseen t) <->
  exists r, In r t /\ id r = i /\ original r = text /\ seen r = false.
Proof.
  unfold select_unseen. rewrite in_map_iff. split.
  - intros (r & Heq & Hin). apply filter_In in Hin as [Hin Hs].
    injection Heq as <- <-. exists r. repeat split; trivial.
    now destruct (seen r).
  - intros (r & Hin & <- & <- & Hs). exists r. split; [reflexivity|].
    apply filter_In. split; [assumption|]. now rewrite Hs.
Qed.

Lemma select_unseen_nil t :
  select_unseen t = [] <-> forall r, In r t -> seen r = true.
Proof.
  unfold select_unseen. induction t as [|r t IH]; simpl.
  - split; [intros _ r []|reflexivity].
  - destruct (seen r) eqn:Hs; simpl.
    + rewrite IH. split.
      * intros H r' [<-|Hin]; auto.
      * intros H r' Hin. apply H. now right.
    + split; [discriminate|]. intros H.
      specialize (H r (or_introl eq_refl)). congruence.
Qed.

End TableFacts.

(** The one-statement operations of the model, written with the
    connection they open, agree with the table functions above. *)
Lemma mark_sentence_seen_connection now i db :
  with_connection db (execute (update_seen now i) ;;; commit)
  = (Return tt, mark_sentence_seen now i db).
Proof. reflexivity. Qed.

Lemma save_rewrite_connection now i text db :
  with_connection db (execute (update_rewrite now i text) ;;; commit)
  = (Return tt, save_rewrite now i text db).
Proof. reflexivity. Qed.

Lemma reset_session_connection db :
  with_connection db (execute update_reset ;;; commit)
  = (Return tt, reset_session db).
Proof. reflexivity. Qed.

Lemma get_random_unseen_sentence_connection rand db :
  with_connection db
    (rows <- query select_unseen ;;
     ret (limit_1 (order_by_random rand rows)))
  = (Return (get_random_unseen_sentence rand db), db).
Proof. reflexivity. Qed.

Lemma get_progress_stats_connection db :
  with_connection db
    (total <- query count_all ;;
     completed <- query count_rewritten ;;
     ret (total, completed))
  = (Return (get_progress_stats db), db).
Proof. reflexivity. Qed.

(** ** Progress statistics *)

(** C1, as stated, fails: on a store with one record and no rewrite the
    operation returns [(1, 0)], total first, and not the pair
    (completed, total) = [(0, 1)]. *)
Lemma progress_stats_not_completed_first :
  get_progress_stats [sample_row] = (1, 0) /\
  get_progress_stats [sample_row]
  <> (count_rewritten [sample_row], count_all [sample_row]).
Proof. split; [reflexivity|discriminate]. Qed.

(** C1, amended: [get_progress_stats] returns the pair (total, completed).
    The first component is the number of all records, the second the
    number of records whose rewrite is present; the controller unpacks the
    pair in that order and hands (completed, total) to the view. *)
Theorem progress_stats_total_first :
  forall db : table,
    fst (get_progress_stats db) = Z.of_nat (List.length db) /\
    snd (get_progress_stats db)
    = Z.of_nat (List.length (filter (fun r => is_not_null (rewrite r)) db)) /\
    get_progress_stats [] = (0, 0) /\
    (forall r, get_progress_stats (r :: db)
               = (fst (get_progress_stats db) + 1,
                  snd (get_progress_stats db)
                  + (if is_not_null (rewrite r) then 1 else 0))) /\
    (forall rand app, model app = db ->
       progress (view (_load_next_sentence rand app))
       = (snd (get_progress_stats db), fst (get_progress_stats db))).
Proof.
  intros db. repeat split.
  - intros r. unfold get_progress_stats, count_all, count_rewritten. simpl.
    destruct (is_not_null (rewrite r)); simpl List.length; f_equal; lia.
  - intros rand app <-. unfold _load_next_sentence.
    destruct (get_random_unseen_sentence rand (model app)) as [[i text]|];
      reflexivity.
Qed.

Lemma progress_stats_total_first_witness :
  progress (view (_load_next_sentence (fun _ => 0)
     (mkController [sample_row] (mkView "" "" (0, 0) []) None None)))
  = (0, 1).
Proof.
  destruct (progress_stats_total_first [sample_row]) as (_ & _ & _ & _ & H).
  rewrite (H (fun _ => 0) (mkController [sample_row] (mkView "" "" (0, 0) []) None None)
             eq_refl).
  reflexivity.
Defined.

(** ** [ORDER BY RANDOM() LIMIT 1] *)

Section OrderByKey.

Context {A : Type}.
Implicit Types (x y : Z * A) (l : list (Z * A)).

Lemma insert_by_key_head x l :
  hd_error (insert_by_key x l)
  = Some (match hd_error l with
          | None => x
          | Some y => if fst x <=? fst y then x else y
          end).
Proof. destruct l as [|y l]; simpl; [|destruct (fst x <=? fst y)]; reflexivity. Qed.

Lemma insert_by_key_perm x l : Permutation (x :: l) (insert_by_key x l).
Proof.
  induction l as [|y l IH]; simpl; [reflexivity|].
  destruct (fst x <=? fst y); [reflexivity|].
  rewrite perm_swap. now constructor.
Qed.

Lemma order_by_key_perm l : Permutation l (order_by_key l).
Proof.
  induction l as [|x l IH]; simpl; [constructor|].
  rewrite <- insert_by_key_perm. now constructor.
Qed.

Lemma order_by_key_nil l : order_by_key l = [] <-> l = [].
Proof.
  split; intros H.
  - apply Permutation_nil. rewrite <- H. symmetry. apply order_by_key_perm.
  - subst. reflexivity.
Qed.

Lemma order_by_key_head_In x l : hd_error (order_by_key l) = Some x -> In x l.
Proof.
  intros H. apply (Permutation_in _ (Permutation_sym (order_by_key_perm l))).
  destruct (order_by_key l); simpl in H; [discriminate|].
  injection H as ->. now left.
Qed.

(** The head of the sorted list is the row with the strictly smallest key,
    wherever that row stands. *)
Lemma order_by_key_head_min l p x :
  nth_error l p = Some x ->
  (forall q y, q <> p -> nth_error l q = Some y -> fst x < fst y) ->
  hd_error (order_by_key l) = Some x.
Proof.
  revert p. induction l as [|a l IH]; intros p Hp Hmin.
  - destruct p; discriminate.
  - simpl order_by_key. rewrite insert_by_key_head. destruct p as [|p].
    + simpl in Hp. injection Hp as ->.
      destruct (hd_error (order_by_key l)) as [y|] eqn:Hy;
        [|reflexivity].
      apply order_by_key_head_In, In_nth_error in Hy as [q Hq].
      specialize (Hmin (S q) y). simpl in Hmin.
      assert (fst x < fst y) by (apply Hmin; [discriminate|assumption]).
      destruct (Z.leb_spec (fst x) (fst y)); [reflexivity|lia].
    + simpl in Hp. rewrite (IH p Hp).
      * specialize (Hmin O a). simpl in Hmin.
        assert (fst x < fst a) by (apply Hmin; [discriminate|reflexivity]).
        destruct (Z.leb_spec (fst a) (fst x)); [lia|reflexivity].
      * intros q y Hq Hy. apply (Hmin (S q) y); [congruence|exact Hy].
Qed.

End OrderByKey.

Lemma random_keys_nth {A} (rand : nat -> Z) (rows : list A) s p :
  nth_error (combine (map rand (seq s (List.length rows))) rows) p
  = option_map (fun row => (rand (s + p)%nat, row)) (nth_error rows p).
Proof.
  revert s p. induction rows as [|r rows IH]; intros s p; simpl.
  - destruct p; reflexivity.
  - destruct p as [|p]; simpl.
    + now rewrite Nat.add_0_r.
    + rewrite IH. now rewrite Nat.add_succ_r.
Qed.

Lemma order_by_random_nil {A} rand (rows : list A) :
  limit_1 (order_by_random rand rows) = None <-> rows = [].
Proof.
  unfold limit_1, order_by_random. split.
  - intros H. destruct rows as [|r rows]; [reflexivity|exfalso].
    destruct (order_by_key _) as [|x l] eqn:E; [|discriminate].
    apply (proj1 (order_by_key_nil _)) in E. unfold random_keys in E. simpl in E.
    discriminate.
  - intros ->. reflexivity.
Qed.

Lemma hd_error_map {A B} (f : A -> B) (l : list A) :
  hd_error (map f l) = option_map f (hd_error l).
Proof. destruct l; reflexivity. Qed.

Lemma order_by_random_In {A} rand (rows : list A) row :
  limit_1 (order_by_random rand rows) = Some row -> In row rows.
Proof.
  unfold limit_1, order_by_random. rewrite hd_error_map. intros H.
  destruct (hd_error (order_by_key _)) as [[k r]|] eqn:E; [|discriminate].
  injection H as ->.
  apply order_by_key_head_In in E. now apply in_combine_r in E.
Qed.

(** The row returned is the one whose key is strictly below all others. *)
Lemma order_by_random_min {A} rand (rows : list A) p row :
  nth_error rows p = Some row ->
  (forall q, (q < List.length rows)%nat -> q <> p -> rand p < rand q) ->
  limit_1 (order_by_random rand rows) = Some row.
Proof.
  intros Hp Hmin. unfold limit_1, order_by_random, random_keys.
  rewrite hd_error_map.
  rewrite (order_by_key_head_min _ p (rand p, row)); [reflexivity| |].
  - rewrite random_keys_nth, Hp. reflexivity.
  - intros q [k r] Hq Hnth. rewrite random_keys_nth in Hnth. simpl in *.
    destruct (nth_error rows q) eqn:Hr; [|discriminate].
    injection Hnth as <- <-. apply Hmin; [|assumption].
    apply nth_error_Some. congruence.
Qed.

Lemma order_by_random_favour {A} (rows : list A) p row :
  nth_error rows p = Some row ->
  limit_1 (order_by_random (favour p) rows) = Some row.
Proof.
  intros Hp. apply (order_by_random_min _ _ p); [assumption|].
  intros q _ Hq. unfold favour. rewrite Nat.eqb_refl.
  destruct (Nat.eqb_spec q p); [contradiction|lia].
Qed.

(** ** Reset *)

(** C6: [reset_session] gives every record [seen = false],
    [rewrite = NULL] and [updated_at = NULL], keeps every record with its
    [id], [original] and [created_at], and deletes none.  Afterwards the
    completed count is 0, the total is what it was, and every record is a
    candidate of [get_random_unseen_sentence] and is returned by it for
    some draw of the random keys. *)
Theorem reset_session_restores_pool :
  forall db : table,
    List.length (reset_session db) = List.length db /\
    map id (reset_session db) = map id db /\
    map original (reset_session db) = map original db /\
    map created_at (reset_session db) = map created_at db /\
    Forall (fun r => seen r = false /\ rewrite r = None /\ updated_at r = None)
           (reset_session db) /\
    get_progress_stats (reset_session db) = (fst (get_progress_stats db), 0) /\
    select_unseen (reset_session db) = map (fun r => (id r, original r)) db /\
    (forall p r, nth_error db p = Some r ->
       get_random_unseen_sentence (favour p) (reset_session db)
       = Some (id r, original r)).
Proof.
  intros db. unfold reset_session.
  split; [apply update_reset_length|].
  split; [apply update_reset_ids|].
  split; [unfold update_reset; now rewrite map_map|].
  split; [unfold update_reset; now rewrite map_map|].
  split.
  { apply Forall_forall. intros r Hr. unfold update_reset in Hr.
    apply in_map_iff in Hr as (r0 & <- & _). simpl. auto. }
  split.
  { unfold get_progress_stats. rewrite count_rewritten_reset.
    unfold count_all. now rewrite update_reset_length. }
  split; [apply select_unseen_reset|].
  intros p r Hp. unfold get_random_unseen_sentence.
  rewrite select_unseen_reset. apply order_by_random_favour.
  rewrite nth_error_map, Hp. reflexivity.
Qed.

Lemma reset_session_restores_pool_witness :
  nth_error
    [mkSentence 1 "The cat sat." (Some "A cat sat down.") true "t0" (Some "t1");
     mkSentence 2 "Dogs run fast." None true "t0" (Some "t2")] 1
  = Some (mkSentence 2 "Dogs run fast." None true "t0" (Some "t2")) /\
  get_random_unseen_sentence (favour 1)
    (reset_session
       [mkSentence 1 "The cat sat." (Some "A cat sat down.") true "t0" (Some "t1");
        mkSentence 2 "Dogs run fast." None true "t0" (Some "t2")])
  = Some (2, "Dogs run fast.").
Proof.
  split; [reflexivity|].
  apply (proj2 (proj2 (proj2 (proj2 (proj2 (proj2 (proj2
    (reset_session_restores_pool
       [mkSentence 1 "The cat sat." (Some "A cat sat down.") true "t0" (Some "t1");
        mkSentence 2 "Dogs run fast." None true "t0" (Some "t2")]))))))) 1%nat
    (mkSentence 2 "Dogs run fast." None true "t0" (Some "t2"))).
  reflexivity.
Defined.

(** ** Point updates *)

(** C9: [save_rewrite] and [mark_sentence_seen] keep the number and the
    order of the records; a record whose id differs from the given id is
    unchanged; a record with the given id keeps [id], [original] and
    [created_at], and has [rewrite] (respectively [seen]) and [updated_at]
    set, the other of [rewrite] and [seen] being kept. *)
Theorem point_updates_frame :
  forall (now : timestamp) (i : Z) (text : string) (db : table)
         (p : nat) (r : sentence),
    nth_error db p = Some r ->
    List.length (save_rewrite now i text db) = List.length db /\
    List.length (mark_sentence_seen now i db) = List.length db /\
    exists r1 r2,
      nth_error (save_rewrite now i text db) p = Some r1 /\
      nth_error (mark_sentence_seen now i db) p = Some r2 /\
      id r1 = id r /\ original r1 = original r /\ created_at r1 = created_at r /\
      id r2 = id r /\ original r2 = original r /\ created_at r2 = created_at r /\
      (id r <> i -> r1 = r /\ r2 = r) /\
      (id r = i ->
         rewrite r1 = Some text /\ seen r1 = seen r /\ updated_at r1 = Some now /\
         seen r2 = true /\ rewrite r2 = rewrite r /\ updated_at r2 = Some now).
Proof.
  intros now i text db p r Hp.
  unfold save_rewrite, mark_sentence_seen.
  split; [apply update_rewrite_length|]. split; [apply update_seen_length|].
  unfold update_rewrite, update_seen. rewrite !nth_error_map, Hp. simpl.
  destruct (Z.eqb_spec (id r) i) as [He|Hne].
  - eexists _, _. repeat split; try reflexivity; simpl; tauto.
  - exists r, r. repeat split; try reflexivity; tauto.
Qed.

Lemma point_updates_frame_witness :
  nth_error [sample_row; mkSentence 2 "Dogs run fast." None false "t0" None] 0
  = Some sample_row /\
  exists r1 r2,
    nth_error (save_rewrite "t1" 1 "A cat sat."
                 [sample_row; mkSentence 2 "Dogs run fast." None false "t0" None]) 0
    = Some r1 /\
    nth_error (mark_sentence_seen "t1" 1
                 [sample_row; mkSentence 2 "Dogs run fast." None false "t0" None]) 0
    = Some r2 /\
    rewrite r1 = Some "A cat sat." /\ seen r2 = true.
Proof.
  split; [reflexivity|].
  destruct (point_updates_frame "t1" 1 "A cat sat."
              [sample_row; mkSentence 2 "Dogs run fast." None false "t0" None]
              0 sample_row eq_refl)
    as (_ & _ & r1 & r2 & H1 & H2 & _ & _ & _ & _ & _ & _ & _ & H).
  destruct (H eq_refl) as (Hr & _ & _ & Hs & _).
  exists r1, r2. repeat split; assumption.
Defined.

(** ** Import *)

Lemma import_rows_cons fault now k v rest n c :
  import_rows fault now k (v :: rest) n c
  = let sentence := PyStr.strip (py_str v) in
    if negb (PyStr.truthy sentence) then import_rows fault now (S k) rest n c
    else match fault k with
         | Some e => (Raise e, c)
         | None =>
             match select_id_by_original sentence (working c) with
             | None =>
                 import_rows fault now (S k) rest (n + 1)
                   (mkConn (committed c)
                           (insert_original (now k) sentence (working c)))
             | Some _ => import_rows fault now (S k) rest n c
             end
         end.
Proof.
  simpl. destruct (negb (PyStr.truthy (PyStr.strip (py_str v)))); [reflexivity|].
  destruct (fault k); [reflexivity|].
  unfold bind, query, execute. simpl.
  destruct (select_id_by_original _ (working c)); reflexivity.
Qed.

(** The loop never touches the database file and only appends to the
    working table of its connection. *)
Lemma import_rows_extends fault now values :
  forall k n c,
    committed (snd (import_rows fault now k values n c)) = committed c /\
    exists extra,
      working (snd (import_rows fault now k values n c)) = working c ++ extra /\
      Forall (fresh_above (max_id (working c))) extra /\
      (forall n', fst (import_rows fault now k values n c) = Return n' ->
                  n' = n + Z.of_nat (List.length extra)).
Proof.
  induction values as [|v rest IH]; intros k n c.
  - simpl. split; [reflexivity|]. exists []. rewrite app_nil_r.
    repeat split; [constructor|]. intros n' H. injection H as <-. simpl. lia.
  - rewrite import_rows_cons. cbv zeta.
    destruct (negb (PyStr.truthy (PyStr.strip (py_str v)))) eqn:Hblank;
      [apply IH|].
    destruct (fault k) as [e|].
    { simpl. split; [reflexivity|]. exists []. rewrite app_nil_r.
      repeat split; [constructor|discriminate]. }
    destruct (select_id_by_original _ (working c)); [apply IH|].
    destruct (IH (S k) (n + 1)
                 (mkConn (committed c)
                    (insert_original (now k) (PyStr.strip (py_str v)) (working c))))
      as (Hc & extra & Hw & Hf & Hn).
    split; [exact Hc|].
    exists (mkSentence (next_id (working c)) (PyStr.strip (py_str v)) None false
                       (now k) None :: extra).
    split; [|split].
    + rewrite Hw. simpl. unfold insert_original. now rewrite <- app_assoc.
    + constructor.
      * unfold fresh_above, next_id. simpl. repeat split; try lia.
        now destruct (PyStr.truthy (PyStr.strip (py_str v))).
      * eapply Forall_impl; [|exact Hf]. intros r (H1 & H2). split; [|exact H2].
        simpl in H1. unfold insert_original in H1. rewrite max_id_app in H1. lia.
    + intros n' H. rewrite (Hn n' H). simpl List.length. lia.
Qed.

(** The loop keeps the rowids pairwise different. *)
Lemma import_rows_ids_NoDup fault now values :
  forall k n c,
    NoDup (map id (working c)) ->
    NoDup (map id (working (snd (import_rows fault now k values n c)))).
Proof.
  induction values as [|v rest IH]; intros k n c Hnd; [exact Hnd|].
  rewrite import_rows_cons. cbv zeta.
  destruct (negb (PyStr.truthy (PyStr.strip (py_str v)))); [now apply IH|].
  destruct (fault k); [exact Hnd|].
  destruct (select_id_by_original _ (working c)); [now apply IH|].
  apply IH. simpl. unfold insert_original. rewrite map_app. simpl.
  apply NoDup_app; [assumption|repeat constructor; intros []|].
  intros i Hi [<-|[]]. apply in_map_iff in Hi as (r & Hid & Hr).
  pose proof (max_id_bound _ r Hr). unfold next_id in Hid. lia.
Qed.

(** What [import_csv] leaves in the database file: the table it found,
    followed by the rows it added. *)
Lemma import_csv_extends src fault now db :
  exists extra,
    snd (import_csv src fault now db) = db ++ extra /\
    Forall (fresh_above (max_id db)) extra /\
    (forall n, fst (import_csv src fault now db) = Return n ->
               n = Z.of_nat (List.length extra)) /\
    (forall e, fst (import_csv src fault now db) = Raise e -> extra = []).
Proof.
  unfold import_csv, import_csv_body.
  destruct src as [df|e0].
  2:{ exists []. rewrite app_nil_r. simpl. repeat split;
        [constructor|discriminate]. }
  destruct (negb (has_column "sentence" df)).
  { exists []. rewrite app_nil_r. simpl. repeat split;
      [constructor|discriminate]. }
  unfold with_connection, bind.
  destruct (import_rows_extends fault now (map (row_get df "sentence") (rows df))
              O 0 (connect db)) as (Hc & extra & Hw & Hf & Hn).
  destruct (import_rows fault now 0 (map (row_get df "sentence") (rows df)) 0
              (connect db)) as [[n|e] c] eqn:E; simpl in *.
  - exists extra. repeat split; try assumption. discriminate.
  - exists []. rewrite app_nil_r. repeat split; auto; try discriminate.
Qed.

Lemma import_csv_ids_NoDup src fault now db :
  NoDup (map id db) -> NoDup (map id (snd (import_csv src fault now db))).
Proof.
  intros Hnd. unfold import_csv, import_csv_body.
  destruct src as [df|e0]; [|exact Hnd].
  destruct (negb (has_column "sentence" df)); [exact Hnd|].
  unfold with_connection, bind.
  pose proof (import_rows_ids_NoDup fault now
                (map (row_get df "sentence") (rows df)) O 0 (connect db) Hnd) as H.
  pose proof (import_rows_extends fault now
                (map (row_get df "sentence") (rows df)) O 0 (connect db))
    as (Hc & _).
  destruct (import_rows fault now 0 (map (row_get df "sentence") (rows df)) 0
              (connect db)) as [[n|e] c]; simpl in *; [exact H|].
  now rewrite Hc.
Qed.

(** An error of SQLite at a row that is not blank ends the loop. *)
Lemma import_rows_fault_raises fault now values :
  forall k k0 v e n c,
    nth_error values k = Some v ->
    PyStr.truthy (PyStr.strip (py_str v)) = true ->
    fault (k0 + k)%nat = Some e ->
    exists e1 c', import_rows fault now k0 values n c = (Raise e1, c').
Proof.
  induction values as [|v0 rest IH]; intros k k0 v e n c Hk Hv Hf.
  - destruct k; discriminate.
  - rewrite import_rows_cons. cbv zeta. destruct k as [|k]; simpl in Hk.
    + injection Hk as ->. rewrite Hv. simpl. rewrite Nat.add_0_r in Hf.
      rewrite Hf. eauto.
    + rewrite <- Nat.add_succ_comm in Hf.
      destruct (negb (PyStr.truthy (PyStr.strip (py_str v0))));
        [now apply (IH k (S k0) v e)|].
      destruct (fault k0); [eauto|].
      destruct (select_id_by_original _ (working c));
        now apply (IH k (S k0) v e).
Qed.

(** C2, as stated, fails.  The source has the rows "a" and "b", the store
    is empty, and SQLite raises while row 1 is processed.  Row 0 has then
    been inserted on the connection, yet the import raises and the store
    is empty afterwards: the row inserted before the error is not
    committed. *)
Lemma import_csv_no_partial_success :
  let src := Return (mkFrame ["sentence"] [[CText "a"]; [CText "b"]]) in
  let fault := fun k => if Nat.eqb k 1
                        then Some (OperationalError "database or disk is full")
                        else None in
  let now := fun _ : nat => "2024-01-01 00:00:00" in
  map original (working (snd (import_rows fault now 0 [CText "a"] 0 (connect []))))
  = ["a"] /\
  import_csv src fault now []
  = (Raise (Exception "Failed to import CSV: database or disk is full"), []) /\
  ~ In "a" (map original (snd (import_csv src fault now []))).
Proof.
  cbv zeta. split; [reflexivity|]. split; [reflexivity|].
  simpl. tauto.
Qed.

(** C2, amended: import is all-or-nothing.  Whenever [import_csv] raises,
    on a missing column, on an unreadable source or on an error while some
    row is processed, the store afterwards is the store before the import:
    rows inserted before the error are rolled back with the transaction.
    An error of SQLite at a row that is not blank does make the import
    raise. *)
Theorem import_csv_all_or_nothing :
  forall (src : outcome DataFrame) (fault : nat -> option exn)
         (now : nat -> timestamp) (db : table),
    (forall e, fst (import_csv src fault now db) = Raise e ->
               snd (import_csv src fault now db) = db) /\
    (forall df k v e,
       src = Return df -> has_column "sentence" df = true ->
       nth_error (map (row_get df "sentence") (rows df)) k = Some v ->
       PyStr.truthy (PyStr.strip (py_str v)) = true ->
       fault k = Some e ->
       exists e', import_csv src fault now db = (Raise e', db)).
Proof.
  intros src fault now db. split.
  - intros e He.
    destruct (import_csv_extends src fault now db) as (extra & Hs & _ & _ & Hr).
    rewrite Hs, (Hr e He). apply app_nil_r.
  - intros df k v e -> Hcol Hk Hv Hf.
    destruct (import_rows_fault_raises fault now _ k O v e 0 (connect db) Hk Hv Hf)
      as (e1 & c & Hraise).
    pose proof (import_rows_extends fault now
                  (map (row_get df "sentence") (rows df)) O 0 (connect db))
      as (Hc & _).
    unfold import_csv, import_csv_body. rewrite Hcol. simpl negb. cbv iota.
    unfold with_connection, bind. rewrite Hraise in *. simpl in *.
    rewrite Hc. eauto.
Qed.

Lemma import_csv_all_or_nothing_witness :
  fst (import_csv (Return (mkFrame ["sentence"] [[CText "a"]; [CText "b"]]))
         (fun k => if Nat.eqb k 1
                   then Some (OperationalError "database or disk is full") else None)
         (fun _ => "2024-01-01 00:00:00") [sample_row])
  = Raise (Exception "Failed to import CSV: database or disk is full") /\
  snd (import_csv (Return (mkFrame ["sentence"] [[CText "a"]; [CText "b"]]))
         (fun k => if Nat.eqb k 1
                   then Some (OperationalError "database or disk is full") else None)
         (fun _ => "2024-01-01 00:00:00") [sample_row])
  = [sample_row].
Proof.
  split; [reflexivity|].
  apply (proj1 (import_csv_all_or_nothing
                  (Return (mkFrame ["sentence"] [[CText "a"]; [CText "b"]]))
                  (fun k => if Nat.eqb k 1
                            then Some (OperationalError "database or disk is full")
                            else None)
                  (fun _ => "2024-01-01 00:00:00") [sample_row])
               (Exception "Failed to import CSV: database or disk is full")).
  reflexivity.
Defined.

(** C8: when no column of the header is named exactly [sentence],
    [import_csv] raises, with the message of the missing column, and the
    store is left as it was.  The comparison of the labels is that of
    strings, so it distinguishes case. *)
Theorem import_csv_missing_column :
  forall (df : DataFrame) (fault : nat -> option exn) (now : nat -> timestamp)
         (db : table),
    ~ In "sentence" (columns df) ->
    import_csv (Return df) fault now db
    = (Raise (Exception
                "Failed to import CSV: CSV must contain a 'sentence' column"),
       db).
Proof.
  intros df fault now db Hcol. unfold import_csv, import_csv_body.
  assert (H : has_column "sentence" df = false).
  { unfold has_column. destruct (existsb _ _) eqn:E; [|reflexivity].
    apply existsb_exists in E as (c & Hin & Heq).
    apply String.eqb_eq in Heq. subst c. contradiction. }
  rewrite H. reflexivity.
Qed.

Lemma import_csv_missing_column_witness :
  ~ In "sentence" ["Sentence"; "id"] /\
  import_csv (Return (mkFrame ["Sentence"; "id"] [[CText "The cat sat."; CText "1"]]))
             no_fault sample_clock [sample_row]
  = (Raise (Exception
              "Failed to import CSV: CSV must contain a 'sentence' column"),
     [sample_row]).
Proof.
  assert (H : ~ In "sentence" ["Sentence"; "id"]).
  { simpl. intros [H|[H|[]]]; discriminate H. }
  split; [exact H|].
  exact (import_csv_missing_column
           (mkFrame ["Sentence"; "id"] [[CText "The cat sat."; CText "1"]])
           no_fault sample_clock [sample_row] H).
Defined.

(** *** Import against the specification *)

Lemma truthy_eqb_empty s : PyStr.truthy s = negb (String.eqb s EmptyString).
Proof. destruct s; reflexivity. Qed.

Lemma select_id_by_original_existsb s t :
  is_not_null (select_id_by_original s t)
  = existsb (fun r => String.eqb (original r) s) t.
Proof.
  unfold select_id_by_original.
  induction t as [|r t IH]; simpl; [reflexivity|].
  destruct (String.eqb (original r) s); [reflexivity|exact IH].
Qed.

(** On the rows whose cell is text the loop of [import_csv] does what the
    specification asks: it trims, skips blanks, inserts what no record
    has yet, and counts the insertions. *)
Lemma import_rows_text_cells now values :
  forallb is_text values = true ->
  forall k n c,
    import_rows no_fault now k values n c
    = (Return (n + fst (spec_import_sentences now k (map field_text values)
                          (working c))),
       mkConn (committed c)
              (snd (spec_import_sentences now k (map field_text values)
                      (working c)))).
Proof.
  induction values as [|v rest IH]; intros Ht k n c.
  - simpl. rewrite Z.add_0_r. now destruct c.
  - simpl in Ht. apply andb_true_iff in Ht as [Hv Hrest].
    destruct v as [s|]; [clear Hv|discriminate].
    rewrite import_rows_cons. cbv zeta. simpl map. simpl spec_import_sentences.
    simpl py_str. rewrite truthy_eqb_empty, negb_involutive.
    destruct (String.eqb (PyStr.strip s) EmptyString); [now apply IH|].
    unfold no_fault at 1. rewrite <- select_id_by_original_existsb.
    destruct (select_id_by_original (PyStr.strip s) (working c)); simpl;
      [now apply IH|].
    rewrite (IH Hrest). simpl.
    destruct (spec_import_sentences now (S k) (map field_text rest)
                (insert_original (now k) (PyStr.strip s) (working c))).
    simpl. f_equal. f_equal. lia.
Qed.

Lemma import_csv_text_cells df now db :
  has_column "sentence" df = true ->
  forallb is_text (map (row_get df "sentence") (rows df)) = true ->
  import_csv (Return df) no_fault now db
  = (Return (fst (spec_import_sentences now O
                    (map field_text (map (row_get df "sentence") (rows df))) db)),
     snd (spec_import_sentences now O
            (map field_text (map (row_get df "sentence") (rows df))) db)).
Proof.
  intros Hcol Ht. unfold import_csv, import_csv_body. rewrite Hcol. simpl negb.
  cbv iota. unfold with_connection, bind.
  rewrite (import_rows_text_cells now _ Ht). reflexivity.
Qed.

(** The scenario of the specification, one header, a blank line and a
    duplicate, on an empty store: two rows are inserted, and the progress
    statistics are (total, completed) = (2, 0). *)
Example import_csv_blank_line :
  fst (import_csv (Return blank_line_frame) no_fault sample_clock []) = Return 2 /\
  map original (snd (import_csv (Return blank_line_frame) no_fault sample_clock []))
  = ["The cat sat."; "Dogs run fast."] /\
  get_progress_stats
    (snd (import_csv (Return blank_line_frame) no_fault sample_clock []))
  = (2, 0).
Proof. repeat split. Qed.

(** C3 at a source with a blank field: a row whose [sentence] field is
    empty reaches the loop as NaN, [str] turns it into the text [nan],
    which is not blank, and the row is inserted and counted.  The
    specification asks for 2 rows, [import_csv] inserts 3. *)
Theorem import_csv_blank_field_inserted :
  fst (import_csv (Return blank_field_frame) no_fault sample_clock []) = Return 3 /\
  map original (snd (import_csv (Return blank_field_frame) no_fault sample_clock []))
  = ["The cat sat."; "nan"; "Dogs run fast."] /\
  fst (spec_import_sentences sample_clock O
         (map field_text (map (row_get blank_field_frame "sentence")
                              (rows blank_field_frame))) [])
  = 2 /\
  map original
    (snd (spec_import_sentences sample_clock O
            (map field_text (map (row_get blank_field_frame "sentence")
                                 (rows blank_field_frame))) []))
  = ["The cat sat."; "Dogs run fast."].
Proof. repeat split. Qed.

(** ** Trimming *)

Lemma list_ascii_of_string_app s1 s2 :
  list_ascii_of_string (s1 ++ s2)%string
  = list_ascii_of_string s1 ++ list_ascii_of_string s2.
Proof. induction s1 as [|c s1 IH]; simpl; [reflexivity|now rewrite IH]. Qed.

(** White space at the end of a text does not change what [strip] returns. *)
Lemma strip_chars_trailing_space l c :
  PyStr.isspace c = true ->
  PyStr.rstrip_chars (PyStr.lstrip_chars (l ++ [c]))
  = PyStr.rstrip_chars (PyStr.lstrip_chars l).
Proof.
  intros Hc. induction l as [|a l IH]; simpl.
  - rewrite Hc. reflexivity.
  - destruct (PyStr.isspace a); [exact IH|].
    unfold PyStr.rstrip_chars.
    change (a :: l ++ [c]) with ((a :: l) ++ [c]).
    rewrite rev_app_distr. simpl rev at 1. simpl app.
    simpl PyStr.lstrip_chars at 1. rewrite Hc. reflexivity.
Qed.

Lemma strip_trailing_newline s :
  PyStr.strip (s ++ String "010"%char EmptyString)%string = PyStr.strip s.
Proof.
  unfold PyStr.strip. rewrite list_ascii_of_string_app. simpl.
  now rewrite strip_chars_trailing_space.
Qed.

Lemma get_rewrite_text_strip v :
  get_rewrite_text v = PyStr.strip (rewrite_text v).
Proof. apply strip_trailing_newline. Qed.

Lemma truthy_false s : PyStr.truthy s = false <-> s = EmptyString.
Proof. destruct s; simpl; split; congruence. Qed.

(** ** Saving and skipping *)

Lemma load_next_sentence_model rand app :
  model (_load_next_sentence rand app) = model app.
Proof.
  unfold _load_next_sentence.
  destruct (get_random_unseen_sentence rand (model app)) as [[i text]|];
    reflexivity.
Qed.

Lemma handle_skip_model now rand app i :
  current_sentence_id app = Some i -> i <> 0 ->
  model (_handle_skip now rand app) = mark_sentence_seen now i (model app).
Proof.
  intros Hi Hne. unfold _handle_skip. rewrite Hi. unfold id_truthy.
  destruct (Z.eqb_spec i 0); [contradiction|]. simpl negb. cbv iota.
  now rewrite load_next_sentence_model.
Qed.

(** C4: with a current sentence [i], a rewrite text that is empty after
    trimming is refused with the error message of the validation and the
    store is left as it was, so the rewrite and the seen flag of every
    record are unchanged; a text that is not empty after trimming is
    written, trimmed, by [save_rewrite] and the record is then marked by
    [mark_sentence_seen]: afterwards every record of id [i] carries the
    rewrite and is seen. *)
Theorem handle_save_validates :
  forall (now_save now_seen : timestamp) (rand : nat -> Z) (app : Controller)
         (i : Z),
    current_sentence_id app = Some i -> i <> 0 ->
    (PyStr.strip (rewrite_text (view app)) = EmptyString ->
       model (_handle_save now_save now_seen rand app) = model app /\
       dialogs (view (_handle_save now_save now_seen rand app))
       = dialogs (view app)
         ++ [ShowError "Error" "Please write something before saving."]) /\
    (PyStr.strip (rewrite_text (view app)) <> EmptyString ->
       model (_handle_save now_save now_seen rand app)
       = mark_sentence_seen now_seen i
           (save_rewrite now_save i (PyStr.strip (rewrite_text (view app)))
              (model app)) /\
       dialogs (view (_handle_save now_save now_seen rand app))
       = dialogs (view app) /\
       forall p r,
         nth_error (model app) p = Some r -> id r = i ->
         nth_error (model (_handle_save now_save now_seen rand app)) p
         = Some (mkSentence (id r) (original r)
                            (Some (PyStr.strip (rewrite_text (view app))))
                            true (created_at r) (Some now_seen))).
Proof.
  intros now_save now_seen rand app i Hi Hne.
  unfold _handle_save. rewrite Hi. simpl id_truthy.
  destruct (Z.eqb_spec i 0) as [|_]; [contradiction|]. simpl negb. cbv iota.
  rewrite get_rewrite_text_strip. split.
  - intros He. rewrite He. simpl. split; reflexivity.
  - intros Hne'. destruct (PyStr.truthy _) eqn:Ht.
    2:{ apply truthy_false in Ht. contradiction. }
    simpl negb. cbv iota. rewrite load_next_sentence_model. simpl model.
    split; [reflexivity|]. split.
    { unfold _load_next_sentence. simpl.
      destruct (get_random_unseen_sentence _ _) as [[j text]|]; reflexivity. }
    intros p r Hp Hid.
    unfold mark_sentence_seen, save_rewrite, update_seen, update_rewrite.
    rewrite !nth_error_map, Hp. simpl.
    rewrite (proj2 (Z.eqb_eq (id r) i) Hid). simpl.
    rewrite (proj2 (Z.eqb_eq (id r) i) Hid). reflexivity.
Qed.

Lemma handle_save_validates_witness :
  (PyStr.strip "   " = EmptyString /\
   model (_handle_save "t1" "t2" (fun _ => 0)
            (mkController [sample_row] (mkView "The cat sat." "   " (0, 1) [])
                          (Some 1) (Some "The cat sat.")))
   = [sample_row]) /\
  (PyStr.strip " A cat sat. " <> EmptyString /\
   model (_handle_save "t1" "t2" (fun _ => 0)
            (mkController [sample_row] (mkView "The cat sat." " A cat sat. " (0, 1) [])
                          (Some 1) (Some "The cat sat.")))
   = mark_sentence_seen "t2" 1 (save_rewrite "t1" 1 "A cat sat." [sample_row])).
Proof.
  assert (H1 : (1 : Z) <> 0) by discriminate.
  assert (H2 : PyStr.strip " A cat sat. " <> EmptyString) by discriminate.
  split; split; [reflexivity| |exact H2|].
  - apply (proj1 (handle_save_validates "t1" "t2" (fun _ => 0)
             (mkController [sample_row] (mkView "The cat sat." "   " (0, 1) [])
                           (Some 1) (Some "The cat sat.")) 1 eq_refl H1)).
    reflexivity.
  - apply (proj2 (handle_save_validates "t1" "t2" (fun _ => 0)
             (mkController [sample_row] (mkView "The cat sat." " A cat sat. " (0, 1) [])
                           (Some 1) (Some "The cat sat.")) 1 eq_refl H1)).
    exact H2.
Defined.

(** ** No repeat until reset *)

Lemma mark_sentence_seen_for_good now i db :
  In i (map id db) -> seen_for_good i (mark_sentence_seen now i db).
Proof.
  intros Hin. unfold mark_sentence_seen. split.
  - now rewrite update_seen_ids.
  - intros r Hr Hid. unfold update_seen in Hr.
    apply in_map_iff in Hr as (r0 & <- & _).
    destruct (id r0 =? i) eqn:E; simpl in *; [reflexivity|].
    apply Z.eqb_neq in E. contradiction.
Qed.

Lemma step_seen_for_good o i db :
  is_reset o = false -> seen_for_good i db -> seen_for_good i (step o db).
Proof.
  intros Ho [Hin Hseen]. destruct o as [src fault now|now j text|now j|];
    [| | |discriminate]; simpl step.
  - destruct (import_csv_extends src fault now db) as (extra & -> & Hf & _).
    split.
    + rewrite map_app. apply in_or_app. now left.
    + intros r Hr Hid. apply in_app_or in Hr as [Hr|Hr]; [now apply Hseen|].
      exfalso. rewrite Forall_forall in Hf. destruct (Hf r Hr) as (Hlt & _).
      apply in_map_iff in Hin as (r0 & Hid0 & Hr0).
      pose proof (max_id_bound db r0 Hr0). lia.
  - unfold save_rewrite. split; [now rewrite update_rewrite_ids|].
    intros r Hr Hid. unfold update_rewrite in Hr.
    apply in_map_iff in Hr as (r0 & <- & Hr0).
    destruct (id r0 =? j) eqn:E; simpl in *; now apply Hseen.
  - unfold mark_sentence_seen. split; [now rewrite update_seen_ids|].
    intros r Hr Hid. unfold update_seen in Hr.
    apply in_map_iff in Hr as (r0 & <- & Hr0).
    destruct (id r0 =? j) eqn:E; simpl in *; [reflexivity|now apply Hseen].
Qed.

Lemma run_seen_for_good ops :
  forall i db,
    forallb (fun o => negb (is_reset o)) ops = true ->
    seen_for_good i db -> seen_for_good i (run ops db).
Proof.
  unfold run. induction ops as [|o ops IH]; intros i db Hops Hs; simpl in *.
  - exact Hs.
  - apply andb_true_iff in Hops as [Ho Hops]. apply IH; [exact Hops|].
    apply step_seen_for_good; [|exact Hs]. now destruct (is_reset o).
Qed.

Lemma get_random_unseen_sentence_unseen rand db i text :
  get_random_unseen_sentence rand db = Some (i, text) ->
  exists r, In r db /\ id r = i /\ original r = text /\ seen r = false.
Proof.
  unfold get_random_unseen_sentence. intros H.
  apply order_by_random_In in H. now apply select_unseen_In.
Qed.

(** C5: once record [i] has been marked seen, which is what both saving
    and skipping do, no later call of [get_random_unseen_sentence] returns
    it, whatever imports, saves and marks come in between, as long as no
    reset does; and a record that [get_random_unseen_sentence] returns is
    one with [seen = false]. *)
Theorem no_repeat_until_reset :
  forall (db : table) (now : timestamp) (i : Z) (ops : list op)
         (rand : nat -> Z),
    In i (map id db) ->
    forallb (fun o => negb (is_reset o)) ops = true ->
    (forall res,
       get_random_unseen_sentence rand (run ops (mark_sentence_seen now i db))
       = Some res -> fst res <> i) /\
    (forall j text,
       get_random_unseen_sentence rand (run ops (mark_sentence_seen now i db))
       = Some (j, text) ->
       exists r, In r (run ops (mark_sentence_seen now i db)) /\
                 id r = j /\ original r = text /\ seen r = false).
Proof.
  intros db now i ops rand Hin Hops.
  pose proof (run_seen_for_good ops i _ Hops
                (mark_sentence_seen_for_good now i db Hin)) as [_ Hseen].
  split.
  - intros [j text] H Hj. simpl in Hj. subst j.
    apply get_random_unseen_sentence_unseen in H as (r & Hr & Hid & _ & Hs).
    rewrite (Hseen r Hr Hid) in Hs. discriminate.
  - intros j text H. exact (get_random_unseen_sentence_unseen rand _ j text H).
Qed.

Lemma no_repeat_until_reset_witness :
  In 1 (map id [sample_row; mkSentence 2 "Dogs run fast." None false "t0" None]) /\
  forallb (fun o => negb (is_reset o))
    [OpImport (Return blank_line_frame) no_fault sample_clock;
     OpSave "t2" 2 "Dogs are fast."] = true /\
  forall res,
    get_random_unseen_sentence (favour 0)
      (run [OpImport (Return blank_line_frame) no_fault sample_clock;
            OpSave "t2" 2 "Dogs are fast."]
           (mark_sentence_seen "t1" 1
              [sample_row; mkSentence 2 "Dogs run fast." None false "t0" None]))
    = Some res -> fst res <> 1.
Proof.
  assert (H1 : In 1 (map id [sample_row;
                             mkSentence 2 "Dogs run fast." None false "t0" None]))
    by (simpl; auto).
  split; [exact H1|]. split; [reflexivity|].
  exact (proj1 (no_repeat_until_reset
                  [sample_row; mkSentence 2 "Dogs run fast." None false "t0" None]
                  "t1" 1
                  [OpImport (Return blank_line_frame) no_fault sample_clock;
                   OpSave "t2" 2 "Dogs are fast."]
                  (favour 0) H1 eq_refl)).
Defined.

(** ** Rowids

    In every store that a run builds from the empty one the rowids are
    pairwise different and positive: 0 is never the id of a record. *)

Lemma step_ids_NoDup o db :
  NoDup (map id db) -> NoDup (map id (step o db)).
Proof.
  intros Hnd. destruct o as [src fault now|now j text|now j|]; simpl.
  - now apply import_csv_ids_NoDup.
  - unfold save_rewrite. now rewrite update_rewrite_ids.
  - unfold mark_sentence_seen. now rewrite update_seen_ids.
  - unfold reset_session. now rewrite update_reset_ids.
Qed.

Lemma step_ids_positive o db :
  Forall (fun i => 0 < i) (map id db) ->
  Forall (fun i => 0 < i) (map id (step o db)).
Proof.
  intros Hpos. destruct o as [src fault now|now j text|now j|]; simpl.
  - destruct (import_csv_extends src fault now db) as (extra & -> & Hf & _).
    rewrite map_app. apply Forall_app. split; [assumption|].
    apply Forall_map. eapply Forall_impl; [|exact Hf].
    intros r (H & _). pose proof (max_id_nonneg db). lia.
  - unfold save_rewrite. now rewrite update_rewrite_ids.
  - unfold mark_sentence_seen. now rewrite update_seen_ids.
  - unfold reset_session. now rewrite update_reset_ids.
Qed.

Lemma run_ids ops :
  forall db,
    NoDup (map id db) /\ Forall (fun i => 0 < i) (map id db) ->
    NoDup (map id (run ops db)) /\
    Forall (fun i => 0 < i) (map id (run ops db)).
Proof.
  unfold run. induction ops as [|o ops IH]; intros db [Hnd Hpos]; simpl.
  - now split.
  - apply IH. split; [now apply step_ids_NoDup|now apply step_ids_positive].
Qed.

Lemma run_from_empty_ids ops :
  NoDup (map id (run ops [])) /\
  Forall (fun i => 0 < i) (map id (run ops [])).
Proof. apply run_ids. split; constructor. Qed.

(** ** The progress invariant *)

(** C10: in every store the statistics satisfy 0 <= completed <= total,
    and so they do after any operation and after any run of operations. *)
Theorem progress_completed_le_total :
  forall db : table,
    0 <= snd (get_progress_stats db) <= fst (get_progress_stats db) /\
    (forall o : op,
       0 <= snd (get_progress_stats (step o db))
         <= fst (get_progress_stats (step o db))) /\
    (forall ops : list op,
       0 <= snd (get_progress_stats (run ops db))
         <= fst (get_progress_stats (run ops db))).
Proof.
  intros db. repeat split; intros; apply count_rewritten_bounds.
Qed.

(** ** The rankings of the random keys *)

Section Rankings.

Lemma insert_at_length {A} p (x : A) l :
  List.length (insert_at p x l) = S (List.length l).
Proof.
  revert l. induction p as [|p IH]; intros [|y l]; simpl; try reflexivity.
  now rewrite IH.
Qed.

Lemma insert_at_split {A} (x : A) l1 l2 :
  insert_at (List.length l1) x (l1 ++ l2) = l1 ++ x :: l2.
Proof.
  induction l1 as [|y l1 IH]; simpl; [now destruct l2|now rewrite IH].
Qed.

Lemma insert_at_perm {A} p (x : A) l : Permutation (x :: l) (insert_at p x l).
Proof.
  revert l. induction p as [|p IH]; intros [|y l]; simpl; try reflexivity.
  rewrite perm_swap. constructor. apply IH.
Qed.

Lemma insert_at_nth_same {A} p (x d : A) l :
  (p <= List.length l)%nat -> nth p (insert_at p x l) d = x.
Proof.
  revert l. induction p as [|p IH]; intros [|y l] Hp; simpl in *;
    try reflexivity; [lia|]. apply IH. lia.
Qed.

Lemma insert_at_nth_other {A} p q (x d : A) l :
  (forall y, In y l -> y <> x) ->
  (p <= List.length l)%nat -> (q <= List.length l)%nat -> q <> p ->
  nth q (insert_at p x l) d <> x.
Proof.
  revert q l. induction p as [|p IH]; intros q [|y l] Hl Hp Hq Hne;
    simpl in *; try lia.
  - destruct q as [|q]; [lia|]. apply Hl. destruct q; [now left|right].
    apply nth_In. lia.
  - destruct q as [|q]; [apply Hl; now left|].
    apply IH; auto; lia.
Qed.

Lemma rankings_S n :
  rankings (S n)
  = flat_map (fun p => map (fun ks => insert_at p O (map S ks)) (rankings n))
             (seq 0 (S n)).
Proof. reflexivity. Qed.

Lemma rankings_In n ks :
  In ks (rankings (S n)) <->
  exists p ks', (p <= n)%nat /\ In ks' (rankings n) /\
                ks = insert_at p O (map S ks').
Proof.
  rewrite rankings_S, in_flat_map. split.
  - intros (p & Hp & Hks). apply in_map_iff in Hks as (ks' & <- & Hks').
    apply in_seq in Hp. exists p, ks'. repeat split; [lia|assumption].
  - intros (p & ks' & Hp & Hks' & ->). exists p. split.
    + apply in_seq. lia.
    + apply in_map_iff. now exists ks'.
Qed.

Lemma rankings_length n : forall ks, In ks (rankings n) -> List.length ks = n.
Proof.
  induction n as [|n IH]; intros ks Hks.
  - destruct Hks as [<-|[]]. reflexivity.
  - apply rankings_In in Hks as (p & ks' & _ & Hks' & ->).
    rewrite insert_at_length, length_map. f_equal. now apply IH.
Qed.

(** A ranking is an arrangement of the ranks [0 .. n-1], every arrangement
    is listed, and none is listed twice. *)
Lemma rankings_sound n : forall ks, In ks (rankings n) -> Permutation (seq 0 n) ks.
Proof.
  induction n as [|n IH]; intros ks Hks.
  - destruct Hks as [<-|[]]. constructor.
  - apply rankings_In in Hks as (p & ks' & _ & Hks' & ->).
    rewrite <- insert_at_perm. simpl. constructor.
    rewrite <- seq_shift. apply Permutation_map. now apply IH.
Qed.

Lemma rankings_complete n : forall ks, Permutation (seq 0 n) ks -> In ks (rankings n).
Proof.
  induction n as [|n IH]; intros ks Hks.
  - apply Permutation_nil in Hks. subst. now left.
  - assert (H0 : In O ks) by (apply (Permutation_in _ Hks); now left).
    apply in_split in H0 as (l1 & l2 & ->).
    simpl in Hks. apply Permutation_cons_app_inv in Hks.
    rewrite <- seq_shift in Hks.
    assert (Hpos : forall y, In y (l1 ++ l2) -> y <> O).
    { intros y Hy. apply (Permutation_in _ (Permutation_sym Hks)) in Hy.
      apply in_map_iff in Hy as (z & <- & _). discriminate. }
    assert (Hmap : l1 ++ l2 = map S (map pred (l1 ++ l2))).
    { rewrite map_map. rewrite <- (map_id (l1 ++ l2)) at 1.
      apply map_ext_in. intros y Hy. specialize (Hpos y Hy). lia. }
    apply rankings_In. exists (List.length l1), (map pred (l1 ++ l2)).
    split; [|split].
    + apply Permutation_length in Hks.
      rewrite length_map, length_seq, length_app in Hks. lia.
    + apply IH. apply (Permutation_map pred) in Hks.
      rewrite map_map in Hks. simpl in Hks. now rewrite map_id in Hks.
    + rewrite <- Hmap. symmetry. apply insert_at_split.
Qed.

Lemma map_S_inj l1 : forall l2, map S l1 = map S l2 -> l1 = l2.
Proof.
  induction l1 as [|x l1 IH]; intros [|y l2] H; simpl in *;
    try discriminate; [reflexivity|].
  injection H as -> H. f_equal. now apply IH.
Qed.

Lemma insert_at_zero_inj p q ks1 ks2 :
  (p <= List.length ks1)%nat -> (q <= List.length ks2)%nat ->
  insert_at p O (map S ks1) = insert_at q O (map S ks2) ->
  p = q /\ ks1 = ks2.
Proof.
  revert q ks1 ks2. induction p as [|p IH]; intros [|q] [|a ks1] [|b ks2];
    simpl; intros Hp Hq H; try lia; try discriminate; auto.
  - injection H as Ha Hm. subst b. apply map_S_inj in Hm. now subst.
  - injection H as Ha H.
    destruct (IH q ks1 ks2 ltac:(lia) ltac:(lia) H) as [-> ->].
    now subst.
Qed.

Lemma rankings_NoDup n : NoDup (rankings n).
Proof.
  induction n as [|n IH]; [repeat constructor; intros []|].
  rewrite rankings_S.
  assert (Hgen : forall ps, NoDup ps -> (forall p, In p ps -> (p <= n)%nat) ->
            NoDup (flat_map
                     (fun p => map (fun ks => insert_at p O (map S ks)) (rankings n))
                     ps)).
  { induction ps as [|a ps IHps]; intros Hnd Hle; simpl; [constructor|].
    inversion Hnd as [|? ? Ha Hps]; subst.
    apply NoDup_app; [| |].
    - apply Finite.Injective_map_NoDup_in; [|exact IH].
      intros ks1 ks2 H1 H2 Heq.
      apply insert_at_zero_inj in Heq as [_ ?]; [assumption| |].
      + rewrite (rankings_length n ks1 H1). apply Hle. now left.
      + rewrite (rankings_length n ks2 H2). apply Hle. now left.
    - apply IHps; [assumption|]. intros p Hp. apply Hle. now right.
    - intros ks H1 H2. apply in_map_iff in H1 as (ks1 & <- & Hk1).
      apply in_flat_map in H2 as (q & Hq & H2).
      apply in_map_iff in H2 as (ks2 & Heq & Hk2).
      apply insert_at_zero_inj in Heq as [-> _]; [contradiction| |].
      + rewrite (rankings_length n ks2 Hk2). apply Hle. now right.
      + rewrite (rankings_length n ks1 Hk1). apply Hle. now left. }
  apply Hgen; [apply seq_NoDup|]. intros p Hp. apply in_seq in Hp. lia.
Qed.

End Rankings.

(** *** Counting the rankings *)

Lemma flat_map_const_length {A B} (g : A -> list B) c l :
  (forall a, In a l -> List.length (g a) = c) ->
  List.length (flat_map g l) = (List.length l * c)%nat.
Proof.
  induction l as [|a l IH]; intros H; simpl; [reflexivity|].
  rewrite length_app, H by now left. rewrite IH; [reflexivity|].
  intros b Hb. apply H. now right.
Qed.

Lemma rankings_count n : List.length (rankings n) = fact n.
Proof.
  induction n as [|n IH]; [reflexivity|].
  rewrite rankings_S.
  rewrite (flat_map_const_length _ (fact n)).
  - rewrite length_seq. reflexivity.
  - intros p _. now rewrite length_map.
Qed.

Lemma filter_all {A} (f : A -> bool) l :
  (forall x, In x l -> f x = true) -> filter f l = l.
Proof.
  induction l as [|a l IH]; intros H; simpl; [reflexivity|].
  rewrite H by now left. f_equal. apply IH. intros x Hx. apply H. now right.
Qed.

Lemma filter_none {A} (f : A -> bool) l :
  (forall x, In x l -> f x = false) -> filter f l = [].
Proof.
  induction l as [|a l IH]; intros H; simpl; [reflexivity|].
  rewrite H by now left. apply IH. intros x Hx. apply H. now right.
Qed.

(** In a ranking exactly one row has rank 0. *)
Lemma rankings_zero n ks d :
  In ks (rankings (S n)) ->
  exists p0, (p0 <= n)%nat /\ nth p0 ks d = O /\
             forall q, (q <= n)%nat -> q <> p0 -> nth q ks d <> O.
Proof.
  intros Hks. apply rankings_In in Hks as (p0 & ks' & Hp0 & Hks' & ->).
  pose proof (rankings_length n ks' Hks') as Hlen.
  exists p0. split; [assumption|]. split.
  - apply insert_at_nth_same. rewrite length_map. lia.
  - intros q Hq Hne. apply insert_at_nth_other; try rewrite length_map;
      try lia.
    intros y Hy. apply in_map_iff in Hy as (z & <- & _). discriminate.
Qed.

(** Among the rankings of [n + 1] rows, those that give rank 0 to the row at
    position [p] are as many as the rankings of [n] rows. *)
Lemma rankings_zero_at_count n p :
  (p <= n)%nat ->
  List.length (filter (fun ks => Nat.eqb (nth p ks 1%nat) O) (rankings (S n)))
  = List.length (rankings n).
Proof.
  intros Hp. rewrite rankings_S.
  set (g := fun a => map (fun ks => insert_at a O (map S ks)) (rankings n)).
  set (f := fun ks => Nat.eqb (nth p ks 1%nat) O).
  assert (Hblock : forall a, (a <= n)%nat ->
            filter f (g a) = if Nat.eqb a p then g a else []).
  { intros a Ha. destruct (Nat.eqb_spec a p) as [->|Hne].
    - apply filter_all. intros ks Hks.
      apply in_map_iff in Hks as (ks' & <- & Hks'). unfold f.
      rewrite insert_at_nth_same; [reflexivity|].
      rewrite length_map, (rankings_length n ks' Hks'). exact Hp.
    - apply filter_none. intros ks Hks.
      apply in_map_iff in Hks as (ks' & <- & Hks'). unfold f.
      apply Nat.eqb_neq. apply insert_at_nth_other;
        try (rewrite length_map, (rankings_length n ks' Hks')); auto.
      intros y Hy. apply in_map_iff in Hy as (z & <- & _). discriminate. }
  assert (Hgen : forall ps, NoDup ps -> (forall a, In a ps -> (a <= n)%nat) ->
            List.length (filter f (flat_map g ps))
            = if existsb (Nat.eqb p) ps then List.length (rankings n) else O).
  { induction ps as [|a ps IH]; intros Hnd Hle; [reflexivity|].
    inversion Hnd as [|? ? Ha Hps]; subst. simpl.
    rewrite filter_app, length_app, Hblock by (apply Hle; now left).
    rewrite IH; [|assumption|intros b Hb; apply Hle; now right].
    rewrite (Nat.eqb_sym p a). destruct (Nat.eqb_spec a p) as [->|Hne]; simpl.
    - unfold g at 1. rewrite length_map.
      destruct (existsb (Nat.eqb p) ps) eqn:E; [|lia].
      apply existsb_exists in E as (x & Hx & Heq).
      apply Nat.eqb_eq in Heq. subst x. contradiction.
    - reflexivity. }
  rewrite Hgen; [|apply seq_NoDup|intros a Ha; apply in_seq in Ha; lia].
  assert (E : existsb (Nat.eqb p) (seq 0 (S n)) = true).
  { apply existsb_exists. exists p. split; [apply in_seq; lia|].
    apply Nat.eqb_refl. }
  now rewrite E.
Qed.

(** *** The choice under a ranking *)

Lemma returns_iff c o : returns c o = true <-> o = Some c.
Proof.
  destruct c as [i text]. destruct o as [[j t]|]; simpl; [|split; discriminate].
  rewrite andb_true_iff, Z.eqb_eq, String.eqb_eq. split.
  - intros [-> ->]. reflexivity.
  - intros H. injection H as -> ->. auto.
Qed.

Lemma select_unseen_ids db : incl (map fst (select_unseen db)) (map id db).
Proof.
  unfold select_unseen. rewrite map_map. simpl.
  intros i Hi. apply in_map_iff in Hi as (r & <- & Hr).
  apply filter_In in Hr as [Hr _]. now apply in_map.
Qed.

(** Rowids are a primary key, so the candidates are pairwise different. *)
Lemma select_unseen_NoDup db : NoDup (map id db) -> NoDup (select_unseen db).
Proof.
  intros Hnd. apply (NoDup_map_inv fst).
  induction db as [|r db IH]; [constructor|].
  simpl in Hnd. inversion Hnd as [|? ? Hr Hdb]; subst.
  unfold select_unseen in *. simpl. destruct (seen r); simpl; [now apply IH|].
  constructor; [|now apply IH].
  intros Hin. apply Hr. now apply (select_unseen_ids db).
Qed.

(** Under a ranking the row of rank 0 is returned. *)
Lemma get_random_unseen_sentence_ranking db ks p0 c0 :
  In ks (rankings (List.length (select_unseen db))) ->
  nth p0 ks 1%nat = O ->
  nth_error (select_unseen db) p0 = Some c0 ->
  get_random_unseen_sentence (keys_of_ranking ks) db = Some c0.
Proof.
  intros Hks H0 Hc0. unfold get_random_unseen_sentence.
  assert (Hlt : (p0 < List.length (select_unseen db))%nat)
    by (apply nth_error_Some; congruence).
  destruct (List.length (select_unseen db)) as [|n] eqn:En; [lia|].
  destruct (rankings_zero n ks 1%nat Hks) as (p1 & Hp1 & Hz & Hother).
  assert (p0 = p1).
  { destruct (Nat.eq_dec p0 p1) as [|Hne]; [assumption|].
    exfalso. apply (Hother p0); [lia|assumption|assumption]. }
  subst p1. apply (order_by_random_min _ _ p0); [assumption|].
  intros q Hq Hne. unfold keys_of_ranking.
  rewrite En in Hq. pose proof (rankings_length _ _ Hks) as Hlen.
  rewrite (nth_indep ks O 1%nat) by lia. rewrite H0.
  rewrite (nth_indep ks O 1%nat) by lia.
  specialize (Hother q ltac:(lia) Hne). lia.
Qed.

Lemma returns_ranking db ks p c :
  NoDup (map id db) ->
  nth_error (select_unseen db) p = Some c ->
  In ks (rankings (List.length (select_unseen db))) ->
  returns c (get_random_unseen_sentence (keys_of_ranking ks) db)
  = Nat.eqb (nth p ks 1%nat) O.
Proof.
  intros Hnd Hc Hks. destruct (Nat.eqb_spec (nth p ks 1%nat) O) as [H0|H0].
  - apply returns_iff. now apply (get_random_unseen_sentence_ranking db ks p).
  - destruct (returns c _) eqn:E; [exfalso|reflexivity].
    apply returns_iff in E.
    assert (Hlt : (p < List.length (select_unseen db))%nat)
      by (apply nth_error_Some; congruence).
    destruct (List.length (select_unseen db)) as [|n] eqn:En; [lia|].
    destruct (rankings_zero n ks 1%nat Hks) as (p1 & Hp1 & Hz & _).
    destruct (nth_error (select_unseen db) p1) as [c1|] eqn:Hc1.
    2:{ apply nth_error_None in Hc1. lia. }
    rewrite <- En in Hks.
    rewrite (get_random_unseen_sentence_ranking db ks p1 c1 Hks Hz Hc1) in E.
    injection E as ->.
    assert (p1 = p).
    { apply (proj1 (NoDup_nth_error (select_unseen db))
                   (select_unseen_NoDup db Hnd)); [lia|congruence]. }
    subst p1. contradiction.
Qed.

(** ** Random choice among the unseen records *)

(** C7: [get_random_unseen_sentence] returns nothing exactly when no
    record has [seen = false]; what it returns is the id and the original
    of a record with [seen = false]; the record returned is the unseen
    record whose random key is strictly the smallest; and the choice is
    uniform over the unseen records: of the [n!] rankings of the keys of
    the [n] unseen records, each unseen record is returned under exactly
    [(n - 1)!], a share of one in [n]. *)
Theorem get_random_unseen_sentence_uniform :
  forall db : table,
    (forall rand,
       get_random_unseen_sentence rand db = None <->
       forall r, In r db -> seen r = true) /\
    (forall rand i text,
       get_random_unseen_sentence rand db = Some (i, text) ->
       exists r, In r db /\ id r = i /\ original r = text /\ seen r = false) /\
    (forall rand p c,
       nth_error (select_unseen db) p = Some c ->
       (forall q, (q < List.length (select_unseen db))%nat -> q <> p ->
                  rand p < rand q) ->
       get_random_unseen_sentence rand db = Some c) /\
    (NoDup (map id db) ->
     forall p c,
       nth_error (select_unseen db) p = Some c ->
       let n := List.length (select_unseen db) in
       List.length
         (filter (fun ks =>
                    returns c (get_random_unseen_sentence (keys_of_ranking ks) db))
                 (rankings n))
       = fact (n - 1) /\
       List.length (rankings n) = (n * fact (n - 1))%nat).
Proof.
  intros db. split; [|split; [|split]].
  - intros rand. unfold get_random_unseen_sentence.
    rewrite order_by_random_nil. apply select_unseen_nil.
  - intros rand i text. apply get_random_unseen_sentence_unseen.
  - intros rand p c Hc Hmin. unfold get_random_unseen_sentence.
    now apply (order_by_random_min _ _ p).
  - intros Hnd p c Hc n.
    assert (Hlt : (p < n)%nat) by (apply nth_error_Some; congruence).
    split.
    + rewrite (filter_ext_in _ (fun ks => Nat.eqb (nth p ks 1%nat) O)).
      2:{ intros ks Hks. now apply returns_ranking. }
      destruct n as [|n']; [lia|].
      rewrite rankings_zero_at_count by lia.
      rewrite rankings_count. f_equal. lia.
    + rewrite rankings_count. destruct n as [|n']; [lia|].
      simpl. rewrite Nat.sub_0_r. reflexivity.
Qed.

Lemma get_random_unseen_sentence_uniform_witness :
  NoDup (map id [sample_row; mkSentence 2 "Dogs run fast." None false "t0" None;
                 mkSentence 3 "Birds sing." None true "t0" (Some "t1")]) /\
  nth_error (select_unseen
               [sample_row; mkSentence 2 "Dogs run fast." None false "t0" None;
                mkSentence 3 "Birds sing." None true "t0" (Some "t1")]) 1
  = Some (2, "Dogs run fast.") /\
  List.length
    (filter (fun ks =>
               returns (2, "Dogs run fast.")
                 (get_random_unseen_sentence (keys_of_ranking ks)
                    [sample_row; mkSentence 2 "Dogs run fast." None false "t0" None;
                     mkSentence 3 "Birds sing." None true "t0" (Some "t1")]))
            (rankings 2))
  = 1%nat.
Proof.
  assert (Hnd : NoDup (map id
            [sample_row; mkSentence 2 "Dogs run fast." None false "t0" None;
             mkSentence 3 "Birds sing." None true "t0" (Some "t1")])).
  { simpl. repeat constructor; simpl; intros H;
      repeat (destruct H as [H|H]; [discriminate H|]); exact H. }
  split; [exact Hnd|]. split; [reflexivity|].
  exact (proj1 (proj2 (proj2 (proj2 (get_random_unseen_sentence_uniform
           [sample_row; mkSentence 2 "Dogs run fast." None false "t0" None;
            mkSentence 3 "Birds sing." None true "t0" (Some "t1")])))
         Hnd 1%nat (2, "Dogs run fast.") eq_refl)).
Defined.

(** * Further properties of the model *)

(** ** [strip] *)

Section Strip.

Lemma lstrip_chars_idem l :
  PyStr.lstrip_chars (PyStr.lstrip_chars l) = PyStr.lstrip_chars l.
Proof.
  induction l as [|c l IH]; simpl; [reflexivity|].
  destruct (PyStr.isspace c) eqn:E; [exact IH|]. simpl. now rewrite E.
Qed.

Lemma lstrip_chars_head l c m :
  PyStr.lstrip_chars l = c :: m -> PyStr.isspace c = false.
Proof.
  induction l as [|a l IH]; simpl; [discriminate|].
  destruct (PyStr.isspace a) eqn:E; [exact IH|].
  intros H. injection H as <- _. exact E.
Qed.

Lemma lstrip_chars_snoc l c :
  PyStr.isspace c = false ->
  PyStr.lstrip_chars (l ++ [c]) = PyStr.lstrip_chars l ++ [c].
Proof.
  intros Hc. induction l as [|a l IH]; simpl; [now rewrite Hc|].
  destruct (PyStr.isspace a); [exact IH|reflexivity].
Qed.

Lemma rstrip_chars_cons c m :
  PyStr.isspace c = false ->
  PyStr.rstrip_chars (c :: m) = c :: PyStr.rstrip_chars m.
Proof.
  intros Hc. unfold PyStr.rstrip_chars. simpl rev.
  rewrite lstrip_chars_snoc by assumption.
  rewrite rev_app_distr. reflexivity.
Qed.

Lemma rstrip_chars_idem l :
  PyStr.rstrip_chars (PyStr.rstrip_chars l) = PyStr.rstrip_chars l.
Proof.
  unfold PyStr.rstrip_chars. now rewrite rev_involutive, lstrip_chars_idem.
Qed.

Lemma strip_chars_idem l :
  PyStr.rstrip_chars (PyStr.lstrip_chars
    (PyStr.rstrip_chars (PyStr.lstrip_chars l)))
  = PyStr.rstrip_chars (PyStr.lstrip_chars l).
Proof.
  destruct (PyStr.lstrip_chars l) as [|c m] eqn:E; [reflexivity|].
  pose proof (lstrip_chars_head _ _ _ E) as Hc.
  rewrite (rstrip_chars_cons c m Hc). simpl PyStr.lstrip_chars. rewrite Hc.
  rewrite (rstrip_chars_cons c _ Hc). now rewrite rstrip_chars_idem.
Qed.

Lemma strip_idem s : PyStr.strip (PyStr.strip s) = PyStr.strip s.
Proof.
  unfold PyStr.strip. rewrite list_ascii_of_string_of_list_ascii.
  now rewrite strip_chars_idem.
Qed.

Lemma strip_head s c rest :
  PyStr.strip s = String c rest -> PyStr.isspace c = false.
Proof.
  unfold PyStr.strip. intros H.
  destruct (PyStr.lstrip_chars (list_ascii_of_string s)) as [|a m] eqn:E;
    [discriminate|].
  pose proof (lstrip_chars_head _ _ _ E) as Ha.
  rewrite (rstrip_chars_cons a m Ha) in H. simpl in H.
  injection H as <- _. exact Ha.
Qed.

End Strip.

(** X12: the text that [get_rewrite_text] reads back from the widget is
    trimmed: stripping it again changes nothing, and it does not begin with
    white space. *)
Theorem get_rewrite_text_trimmed :
  forall v : View,
    PyStr.strip (get_rewrite_text v) = get_rewrite_text v /\
    match get_rewrite_text v with
    | String c _ => PyStr.isspace c = false
    | EmptyString => True
    end.
Proof.
  intros v. unfold get_rewrite_text. split; [apply strip_idem|].
  destruct (PyStr.strip _) as [|c rest] eqn:E; [exact I|].
  exact (strip_head _ c rest E).
Qed.

(** ** Import, again *)

Lemma has_original_app s t e :
  has_original s (t ++ e) = has_original s t || has_original s e.
Proof. unfold has_original. apply existsb_app. Qed.

Lemma select_id_by_original_has s t :
  select_id_by_original s t = None <-> has_original s t = false.
Proof.
  unfold has_original. rewrite <- select_id_by_original_existsb.
  destruct (select_id_by_original s t); simpl; split; congruence.
Qed.

Lemma has_original_In s t : has_original s t = true <-> In s (map original t).
Proof.
  unfold has_original. rewrite existsb_exists, in_map_iff. split.
  - intros (r & Hr & He). apply String.eqb_eq in He. now exists r.
  - intros (r & He & Hr). exists r. split; [assumption|]. now apply String.eqb_eq.
Qed.

(** After the loop every value that is not blank is in the working table. *)
Lemma import_rows_present now values :
  forall k n c v,
    In v values -> PyStr.truthy (PyStr.strip (py_str v)) = true ->
    has_original (PyStr.strip (py_str v))
      (working (snd (import_rows no_fault now k values n c))) = true.
Proof.
  induction values as [|v0 rest IH]; intros k n c v Hin Hv; [destruct Hin|].
  rewrite import_rows_cons. cbv zeta. destruct Hin as [->|Hin].
  - rewrite Hv. simpl negb. cbv iota. unfold no_fault at 1.
    destruct (select_id_by_original _ (working c)) as [j|] eqn:E.
    + destruct (import_rows_extends no_fault now rest (S k) n c)
        as (_ & extra & -> & _).
      rewrite has_original_app. apply orb_true_iff. left.
      destruct (has_original _ (working c)) eqn:H; [reflexivity|].
      apply select_id_by_original_has in H. congruence.
    + destruct (import_rows_extends no_fault now rest (S k) (n + 1)
                  (mkConn (committed c)
                     (insert_original (now k) (PyStr.strip (py_str v))
                        (working c))))
        as (_ & extra & -> & _).
      simpl working. unfold insert_original.
      rewrite !has_original_app. unfold has_original at 2. simpl.
      rewrite String.eqb_refl. simpl. now rewrite orb_true_r.
  - destruct (negb (PyStr.truthy (PyStr.strip (py_str v0)))); [now apply IH|].
    unfold no_fault at 1.
    destruct (select_id_by_original _ (working c)); now apply IH.
Qed.

(** A loop over values that the working table has already inserts nothing. *)
Lemma import_rows_nothing_new now values :
  forall k n c,
    (forall v, In v values -> PyStr.truthy (PyStr.strip (py_str v)) = true ->
               has_original (PyStr.strip (py_str v)) (working c) = true) ->
    import_rows no_fault now k values n c = (Return n, c).
Proof.
  induction values as [|v0 rest IH]; intros k n c H; [reflexivity|].
  rewrite import_rows_cons. cbv zeta.
  destruct (PyStr.truthy (PyStr.strip (py_str v0))) eqn:Hv; simpl negb; cbv iota.
  - unfold no_fault at 1.
    destruct (select_id_by_original _ (working c)) eqn:E.
    + apply IH. intros v Hin. apply H. now right.
    + apply select_id_by_original_has in E.
      rewrite (H v0 (or_introl eq_refl) Hv) in E. discriminate.
  - apply IH. intros v Hin. apply H. now right.
Qed.

(** X1: importing the same source a second time inserts nothing: when an
    import without errors has returned, a second import of the same
    source returns 0 and leaves the store as the first import left it. *)
Theorem import_csv_twice :
  forall (df : DataFrame) (now1 now2 : nat -> timestamp) (db db1 : table)
         (n : Z),
    import_csv (Return df) no_fault now1 db = (Return n, db1) ->
    import_csv (Return df) no_fault now2 db1 = (Return 0, db1).
Proof.
  intros df now1 now2 db db1 n H.
  unfold import_csv, import_csv_body in *.
  destruct (negb (has_column "sentence" df)); [discriminate|].
  unfold with_connection, bind in *.
  set (values := map (row_get df "sentence") (rows df)) in *.
  pose proof (import_rows_present now1 values O 0 (connect db)) as Hp.
  destruct (import_rows no_fault now1 0 values 0 (connect db)) as [[m|e] c];
    simpl in H, Hp; [|discriminate].
  injection H as <- <-.
  rewrite (import_rows_nothing_new now2 values O 0 (connect (working c)));
    [reflexivity|exact Hp].
Qed.

Lemma import_csv_twice_witness :
  import_csv (Return blank_field_frame) no_fault sample_clock [sample_row]
  = (Return 2,
     [sample_row;
      mkSentence 2 "nan" None false "2024-01-01 00:00:00" None;
      mkSentence 3 "Dogs run fast." None false "2024-01-01 00:00:00" None]) /\
  import_csv (Return blank_field_frame) no_fault sample_clock
    [sample_row;
     mkSentence 2 "nan" None false "2024-01-01 00:00:00" None;
     mkSentence 3 "Dogs run fast." None false "2024-01-01 00:00:00" None]
  = (Return 0,
     [sample_row;
      mkSentence 2 "nan" None false "2024-01-01 00:00:00" None;
      mkSentence 3 "Dogs run fast." None false "2024-01-01 00:00:00" None]).
Proof.
  split; [reflexivity|].
  exact (import_csv_twice blank_field_frame sample_clock sample_clock
           [sample_row] _ 2 eq_refl).
Defined.

Lemma count_rewritten_app t e :
  count_rewritten (t ++ e) = count_rewritten t + count_rewritten e.
Proof.
  unfold count_rewritten. rewrite filter_app, length_app. lia.
Qed.

Lemma count_rewritten_fresh m e :
  Forall (fresh_above m) e -> count_rewritten e = 0.
Proof.
  unfold count_rewritten. induction e as [|r e IH]; intros H; [reflexivity|].
  inversion H as [|? ? (_ & Hr & _) He]; subst. simpl. rewrite Hr. simpl.
  now apply IH.
Qed.



(** ** What no operation does *)

Lemma step_identity o db :
  exists extra, map identity_of (step o db) = map identity_of db ++ extra.
Proof.
  destruct o as [src fault now|now j text|now j|]; simpl.
  - destruct (import_csv_extends src fault now db) as (extra & -> & _).
    exists (map identity_of extra). apply map_app.
  - exists []. rewrite app_nil_r. unfold save_rewrite, update_rewrite.
    rewrite map_map. apply map_ext. intros r. now destruct (id r =? j).
  - exists []. rewrite app_nil_r. unfold mark_sentence_seen, update_seen.
    rewrite map_map. apply map_ext. intros r. now destruct (id r =? j).
  - exists []. rewrite app_nil_r. unfold reset_session, update_reset.
    now rewrite map_map.
Qed.


(** ** Invariants of the originals and of the timestamps *)

Lemma import_rows_originals (P : string -> Prop) fault now values :
  (forall x, PyStr.truthy (PyStr.strip x) = true -> P (PyStr.strip x)) ->
  forall k n c,
    NoDup (map original (working c)) /\ Forall P (map original (working c)) ->
    NoDup (map original (working (snd (import_rows fault now k values n c)))) /\
    Forall P (map original (working (snd (import_rows fault now k values n c)))).
Proof.
  intros HP. induction values as [|v rest IH]; intros k n c H; [exact H|].
  rewrite import_rows_cons. cbv zeta.
  destruct (PyStr.truthy (PyStr.strip (py_str v))) eqn:Hv; simpl negb; cbv iota;
    [|now apply IH].
  destruct (fault k); [exact H|].
  destruct (select_id_by_original _ (working c)) eqn:E; [now apply IH|].
  apply IH. simpl working. unfold insert_original. rewrite map_app. simpl.
  destruct H as [Hnd Hall]. split.
  - apply NoDup_app; [assumption|repeat constructor; intros []|].
    intros s Hs [<-|[]]. apply has_original_In in Hs.
    apply select_id_by_original_has in E. congruence.
  - apply Forall_app. split; [assumption|]. repeat constructor. now apply HP.
Qed.

Lemma import_csv_originals (P : string -> Prop) src fault now db :
  (forall x, PyStr.truthy (PyStr.strip x) = true -> P (PyStr.strip x)) ->
  NoDup (map original db) /\ Forall P (map original db) ->
  NoDup (map original (snd (import_csv src fault now db))) /\
  Forall P (map original (snd (import_csv src fault now db))).
Proof.
  intros HP H. unfold import_csv, import_csv_body.
  destruct src as [df|e0]; [|exact H].
  destruct (negb (has_column "sentence" df)); [exact H|].
  unfold with_connection, bind.
  pose proof (import_rows_originals P fault now
                (map (row_get df "sentence") (rows df)) HP O 0 (connect db) H)
    as H'.
  pose proof (import_rows_extends fault now
                (map (row_get df "sentence") (rows df)) O 0 (connect db))
    as (Hc & _).
  destruct (import_rows fault now 0 (map (row_get df "sentence") (rows df)) 0
              (connect db)) as [[m|e] c]; simpl in *; [exact H'|].
  now rewrite Hc.
Qed.

Lemma update_seen_originals now i t :
  map original (update_seen now i t) = map original t.
Proof.
  unfold update_seen. rewrite map_map. apply map_ext.
  intros r. now destruct (id r =? i).
Qed.

Lemma update_rewrite_originals now i text t :
  map original (update_rewrite now i text t) = map original t.
Proof.
  unfold update_rewrite. rewrite map_map. apply map_ext.
  intros r. now destruct (id r =? i).
Qed.

Lemma update_reset_originals t : map original (update_reset t) = map original t.
Proof. unfold update_reset. now rewrite map_map. Qed.

Lemma step_originals o db :
  NoDup (map original db) /\ Forall trimmed (map original db) ->
  NoDup (map original (step o db)) /\ Forall trimmed (map original (step o db)).
Proof.
  intros H. destruct o as [src fault now|now j text|now j|]; simpl.
  - apply import_csv_originals; [|exact H].
    intros x Hx. split; [exact Hx|apply strip_idem].
  - unfold save_rewrite. now rewrite update_rewrite_originals.
  - unfold mark_sentence_seen. now rewrite update_seen_originals.
  - unfold reset_session. now rewrite update_reset_originals.
Qed.

(** X2: the originals of a store stay pairwise different, non-empty and
    trimmed.  Every run of operations keeps this, so a store built from the
    empty one has no two records of the same original and no original that
    is blank or has white space around it. *)
Theorem run_originals :
  forall (ops : list op) (db : table),
    NoDup (map original db) -> Forall trimmed (map original db) ->
    NoDup (map original (run ops db)) /\
    Forall trimmed (map original (run ops db)).
Proof.
  unfold run. induction ops as [|o ops IH]; intros db Hnd Ht; simpl.
  - now split.
  - destruct (step_originals o db (conj Hnd Ht)) as [H1 H2]. now apply IH.
Qed.

Lemma run_originals_witness :
  NoDup (map original
           (run [OpImport (Return blank_field_frame) no_fault sample_clock;
                 OpSave "t1" 1 "A cat sat.";
                 OpImport (Return blank_line_frame) no_fault sample_clock] [])) /\
  Forall trimmed
    (map original
       (run [OpImport (Return blank_field_frame) no_fault sample_clock;
             OpSave "t1" 1 "A cat sat.";
             OpImport (Return blank_line_frame) no_fault sample_clock] [])).
Proof.
  apply (run_originals
           [OpImport (Return blank_field_frame) no_fault sample_clock;
            OpSave "t1" 1 "A cat sat.";
            OpImport (Return blank_line_frame) no_fault sample_clock] []);
    constructor.
Defined.

(** X3: a record that has a rewrite or is seen has an [updated_at]: every
    run of operations keeps this, since the two updates set the timestamp,
    an import adds records with neither, and a reset clears all three. *)
Theorem run_updated_at :
  forall (ops : list op) (db : table),
    (forall r, In r db -> rewrite r <> None \/ seen r = true ->
               updated_at r <> None) ->
    forall r, In r (run ops db) -> rewrite r <> None \/ seen r = true ->
              updated_at r <> None.
Proof.
  unfold run. induction ops as [|o ops IH]; intros db H; simpl; [exact H|].
  apply IH. clear IH. intros r Hr Hc.
  destruct o as [src fault now|now j text|now j|]; simpl in Hr.
  - destruct (import_csv_extends src fault now db) as (extra & Hs & Hf & _).
    rewrite Hs in Hr. apply in_app_or in Hr as [Hr|Hr]; [now apply H|].
    rewrite Forall_forall in Hf. destruct (Hf r Hr) as (_ & H1 & H2 & _).
    destruct Hc; congruence.
  - unfold save_rewrite, update_rewrite in Hr.
    apply in_map_iff in Hr as (r0 & <- & Hr0).
    destruct (id r0 =? j); [discriminate|now apply H].
  - unfold mark_sentence_seen, update_seen in Hr.
    apply in_map_iff in Hr as (r0 & <- & Hr0).
    destruct (id r0 =? j); [discriminate|now apply H].
  - unfold reset_session, update_reset in Hr.
    apply in_map_iff in Hr as (r0 & <- & Hr0). simpl in Hc.
    destruct Hc; [contradiction|discriminate].
Qed.

Lemma run_updated_at_witness :
  (forall r, In r (@nil sentence) -> rewrite r <> None \/ seen r = true ->
             updated_at r <> None) /\
  (forall r,
     In r (run [OpImport (Return blank_line_frame) no_fault sample_clock;
                OpMarkSeen "t1" 2] []) ->
     rewrite r <> None \/ seen r = true -> updated_at r <> None).
Proof.
  assert (H : forall r, In r (@nil sentence) ->
                        rewrite r <> None \/ seen r = true ->
                        updated_at r <> None) by (intros r []).
  split; [exact H|].
  exact (run_updated_at
           [OpImport (Return blank_line_frame) no_fault sample_clock;
            OpMarkSeen "t1" 2] [] H).
Defined.

(** ** The point updates, again *)





(** ** Reset, again *)

Lemma update_reset_identity t1 t2 :
  map identity_of t1 = map identity_of t2 -> update_reset t1 = update_reset t2.
Proof.
  revert t2. induction t1 as [|r1 t1 IH]; intros [|r2 t2] H; simpl in *;
    try discriminate; [reflexivity|].
  injection H as H1 H2 H3 H. rewrite H1, H2, H3. f_equal. now apply IH.
Qed.

(** X8: a reset forgets the session.  Resetting after any run of saves,
    marks and resets gives the store that resetting at once gives; in
    particular resetting twice is resetting once. *)
Theorem reset_session_absorbs :
  forall (ops : list op) (db : table),
    forallb (fun o => negb (is_import o)) ops = true ->
    reset_session (run ops db) = reset_session db.
Proof.
  unfold run. induction ops as [|o ops IH]; intros db Hops; simpl in *;
    [reflexivity|].
  apply andb_true_iff in Hops as [Ho Hops]. rewrite (IH _ Hops).
  unfold reset_session. apply update_reset_identity.
  destruct o as [src fault now|now j text|now j|]; [discriminate| | |]; simpl.
  - unfold save_rewrite, update_rewrite. rewrite map_map. apply map_ext.
    intros r. now destruct (id r =? j).
  - unfold mark_sentence_seen, update_seen. rewrite map_map. apply map_ext.
    intros r. now destruct (id r =? j).
  - unfold reset_session, update_reset. now rewrite map_map.
Qed.

Lemma reset_session_absorbs_witness :
  reset_session
    (run [OpSave "t1" 1 "A cat sat."; OpMarkSeen "t2" 1; OpReset]
         [sample_row])
  = reset_session [sample_row].
Proof.
  exact (reset_session_absorbs
           [OpSave "t1" 1 "A cat sat."; OpMarkSeen "t2" 1; OpReset]
           [sample_row] eq_refl).
Defined.

(** ** Export *)

Lemma select_rewritten_In x t :
  In x (select_rewritten t) <->
  exists r, In r t /\ rewrite r = Some (x_rewrite x) /\
            x = mkExportRow (id r) (original r) (x_rewrite x) (created_at r)
                            (updated_at r).
Proof.
  unfold select_rewritten. rewrite in_flat_map. split.
  - intros (r & Hr & Hx). exists r. split; [assumption|].
    destruct (rewrite r) as [text|]; [|destruct Hx].
    destruct Hx as [<-|[]]. simpl. auto.
  - intros (r & Hr & Hw & Hx). exists r. split; [assumption|].
    rewrite Hw. left. now symmetry.
Qed.

Lemma select_rewritten_length t :
  Z.of_nat (List.length (select_rewritten t)) = count_rewritten t.
Proof.
  unfold select_rewritten, count_rewritten. f_equal.
  induction t as [|r t IH]; simpl; [reflexivity|].
  destruct (rewrite r); simpl; now rewrite IH.
Qed.

Lemma select_rewritten_ids t :
  map x_id (select_rewritten t)
  = map id (filter (fun r => is_not_null (rewrite r)) t).
Proof.
  unfold select_rewritten. induction t as [|r t IH]; simpl; [reflexivity|].
  destruct (rewrite r); simpl; now rewrite IH.
Qed.

(** X9: the file that [export_rewrites_to_csv] writes has the header
    [id, original, rewrite, created_at, updated_at] and one line for each
    record with a rewrite, and for no other, in the order of the store;
    the lines are as many as the completed count of the progress
    statistics; after a reset the file has the header only. *)
Theorem export_lists_completed :
  forall db : table,
    csv_header (export_rewrites_to_csv db)
    = ["id"; "original"; "rewrite"; "created_at"; "updated_at"] /\
    Z.of_nat (List.length (csv_lines (export_rewrites_to_csv db)))
    = snd (get_progress_stats db) /\
    map x_id (csv_lines (export_rewrites_to_csv db))
    = map id (filter (fun r => is_not_null (rewrite r)) db) /\
    (forall r text,
       In r db -> rewrite r = Some text ->
       In (mkExportRow (id r) (original r) text (created_at r) (updated_at r))
          (csv_lines (export_rewrites_to_csv db))) /\
    (forall x,
       In x (csv_lines (export_rewrites_to_csv db)) ->
       exists r, In r db /\ id r = x_id x /\ original r = x_original x /\
                 rewrite r = Some (x_rewrite x)) /\
    csv_lines (export_rewrites_to_csv (reset_session db)) = [].
Proof.
  intros db. simpl. split; [reflexivity|].
  split; [apply select_rewritten_length|].
  split; [apply select_rewritten_ids|]. split; [|split].
  - intros r text Hr Hw. apply select_rewritten_In. exists r. simpl. auto.
  - intros x Hx. apply select_rewritten_In in Hx as (r & Hr & Hw & ->).
    exists r. simpl. auto.
  - unfold reset_session, update_reset, select_rewritten.
    induction db as [|r t IH]; simpl; [reflexivity|exact IH].
Qed.

Lemma export_lists_completed_witness :
  In (mkSentence 1 "The cat sat." (Some "A cat sat.") true "t0" (Some "t1"))
     [mkSentence 1 "The cat sat." (Some "A cat sat.") true "t0" (Some "t1");
      mkSentence 2 "Dogs run fast." None true "t0" (Some "t2")] /\
  In (mkExportRow 1 "The cat sat." "A cat sat." "t0" (Some "t1"))
     (csv_lines (export_rewrites_to_csv
        [mkSentence 1 "The cat sat." (Some "A cat sat.") true "t0" (Some "t1");
         mkSentence 2 "Dogs run fast." None true "t0" (Some "t2")])).
Proof.
  assert (H : In (mkSentence 1 "The cat sat." (Some "A cat sat.") true "t0"
                             (Some "t1"))
                 [mkSentence 1 "The cat sat." (Some "A cat sat.") true "t0"
                             (Some "t1");
                  mkSentence 2 "Dogs run fast." None true "t0" (Some "t2")])
    by (now left).
  split; [exact H|].
  exact (proj1 (proj2 (proj2 (proj2 (export_lists_completed
           [mkSentence 1 "The cat sat." (Some "A cat sat.") true "t0" (Some "t1");
            mkSentence 2 "Dogs run fast." None true "t0" (Some "t2")]))))
         _ "A cat sat." H eq_refl).
Defined.

(** X10: a file written by the export cannot be imported.  Whatever lines
    it has, its header has no column [sentence], so [import_csv] raises on
    it and inserts nothing: the originals of an export come back only after
    the column is renamed. *)
Theorem export_is_not_importable :
  forall (db0 : table) (read_back : list (list cell))
         (fault : nat -> option exn) (now : nat -> timestamp) (db : table),
    import_csv
      (Return (mkFrame (csv_header (export_rewrites_to_csv db0)) read_back))
      fault now db
    = (Raise (Exception
                "Failed to import CSV: CSV must contain a 'sentence' column"),
       db).
Proof. reflexivity. Qed.

(** ** Rowids, again *)

Lemma consecutive_ids_max_from l :
  forall s : nat,
    map id l = map Z.of_nat (seq (S s) (List.length l)) ->
    max_id l = match l with
               | [] => 0
               | _ :: _ => Z.of_nat s + Z.of_nat (List.length l)
               end.
Proof.
  induction l as [|r l IH]; intros s Hl; [reflexivity|].
  simpl in Hl. injection Hl as Hr Hl. simpl max_id. rewrite Hr.
  rewrite (IH (S s) Hl). simpl List.length.
  destruct l as [|r' l]; simpl List.length; lia.
Qed.

Lemma consecutive_ids_max db :
  consecutive_ids db -> max_id db = Z.of_nat (List.length db).
Proof.
  intros H. rewrite (consecutive_ids_max_from db O H).
  destruct db; simpl List.length; lia.
Qed.

Lemma consecutive_ids_insert now s db :
  consecutive_ids db -> consecutive_ids (insert_original now s db).
Proof.
  intros H. unfold consecutive_ids, insert_original in *.
  rewrite map_app, length_app, H. simpl List.length.
  rewrite Nat.add_1_r, seq_S, map_app. simpl. f_equal. f_equal.
  unfold next_id. rewrite (consecutive_ids_max db H). lia.
Qed.

Lemma import_rows_consecutive fault now values :
  forall k n c,
    consecutive_ids (working c) ->
    consecutive_ids (working (snd (import_rows fault now k values n c))).
Proof.
  induction values as [|v rest IH]; intros k n c H; [exact H|].
  rewrite import_rows_cons. cbv zeta.
  destruct (negb (PyStr.truthy (PyStr.strip (py_str v)))); [now apply IH|].
  destruct (fault k); [exact H|].
  destruct (select_id_by_original _ (working c)); [now apply IH|].
  apply IH. simpl. now apply consecutive_ids_insert.
Qed.

Lemma step_consecutive o db : consecutive_ids db -> consecutive_ids (step o db).
Proof.
  intros H. destruct o as [src fault now|now j text|now j|]; simpl.
  - unfold import_csv, import_csv_body.
    destruct src as [df|e0]; [|exact H].
    destruct (negb (has_column "sentence" df)); [exact H|].
    unfold with_connection, bind.
    pose proof (import_rows_consecutive fault now
                  (map (row_get df "sentence") (rows df)) O 0 (connect db) H)
      as H'.
    pose proof (import_rows_extends fault now
                  (map (row_get df "sentence") (rows df)) O 0 (connect db))
      as (Hc & _).
    destruct (import_rows fault now 0 (map (row_get df "sentence") (rows df)) 0
                (connect db)) as [[m|e] c]; simpl in *; [exact H'|].
    now rewrite Hc.
  - unfold consecutive_ids, save_rewrite in *.
    now rewrite update_rewrite_ids, update_rewrite_length.
  - unfold consecutive_ids, mark_sentence_seen in *.
    now rewrite update_seen_ids, update_seen_length.
  - unfold consecutive_ids, reset_session in *.
    now rewrite update_reset_ids, update_reset_length.
Qed.

(** X11: the records of a store built from the empty one are numbered 1,
    2, 3, and so on in the order of their insertion, without gap and
    without repeat, whatever imports, failed imports, saves, marks and
    resets the run has. *)
Theorem run_rowids_consecutive :
  forall ops : list op,
    map id (run ops [])
    = map Z.of_nat (seq 1 (List.length (run ops []))).
Proof.
  intros ops. change (consecutive_ids (run ops [])).
  assert (H : consecutive_ids []) by reflexivity.
  revert H. generalize (@nil sentence). unfold run.
  induction ops as [|o ops IH]; intros db H; simpl; [exact H|].
  apply IH. now apply step_consecutive.
Qed.

(** * Properties of the controller *)

Section ControllerInvariants.

Local Ltac kept := right; repeat split; (reflexivity || assumption).

Lemma load_next_sentence_current_ok rand app :
  current_ok (_load_next_sentence rand app).
Proof.
  unfold _load_next_sentence, current_ok.
  destruct (get_random_unseen_sentence rand (model app)) as [[i text]|] eqn:E;
    simpl.
  - split; [reflexivity|]. now apply (get_random_unseen_sentence_unseen rand).
  - split; [reflexivity|]. unfold get_random_unseen_sentence in E.
    apply order_by_random_nil in E. now apply select_unseen_nil.
Qed.

Lemma load_next_sentence_progress_ok rand app :
  progress_ok (_load_next_sentence rand app).
Proof.
  unfold _load_next_sentence, progress_ok.
  destruct (get_random_unseen_sentence rand (model app)) as [[i text]|];
    reflexivity.
Qed.

(** The two invariants of the display read the store, the current sentence,
    the sentence area and the progress label, and nothing else. *)
Lemma current_ok_same app app' :
  model app' = model app ->
  sentence_text (view app') = sentence_text (view app) ->
  current_sentence_id app' = current_sentence_id app ->
  current_sentence_text app' = current_sentence_text app ->
  current_ok app -> current_ok app'.
Proof. unfold current_ok. intros -> -> -> ->. exact (fun H => H). Qed.

Lemma progress_ok_same app app' :
  model app' = model app -> progress (view app') = progress (view app) ->
  progress_ok app -> progress_ok app'.
Proof. unfold progress_ok. intros -> ->. exact (fun H => H). Qed.

Lemma import_csv_raise_unchanged src fault now db e db' :
  import_csv src fault now db = (Raise e, db') -> db' = db.
Proof.
  intros H.
  destruct (import_csv_extends src fault now db) as (extra & Hs & _ & _ & Hr).
  rewrite H in Hs, Hr. simpl in Hs, Hr. rewrite Hs, (Hr e eq_refl).
  apply app_nil_r.
Qed.

(** Every handler either calls [_load_next_sentence] last, or leaves the
    store and what the display shows of it alone. *)
Lemma dispatch_reloads_or_keeps ev app :
  (exists rand app0, dispatch ev app = _load_next_sentence rand app0) \/
  (model (dispatch ev app) = model app /\
   sentence_text (view (dispatch ev app)) = sentence_text (view app) /\
   progress (view (dispatch ev app)) = progress (view app) /\
   current_sentence_id (dispatch ev app) = current_sentence_id app /\
   current_sentence_text (dispatch ev app) = current_sentence_text app).
Proof.
  destruct ev as [file_path src fault now rand|now_save now_seen rand|now rand
                  |file_path io|confirmed rand|text]; simpl dispatch.
  - unfold _handle_import. destruct (PyStr.truthy file_path); [|kept].
    destruct (import_csv src fault now (model app)) as [[n|e] db'] eqn:E.
    + left. eauto.
    + apply import_csv_raise_unchanged in E. subst db'. kept.
  - unfold _handle_save.
    destruct (negb (id_truthy (current_sentence_id app))); [kept|].
    destruct (negb (PyStr.truthy (get_rewrite_text (view app)))); [kept|].
    destruct (current_sentence_id app) eqn:Hcur; [left; eauto|kept].
  - unfold _handle_skip.
    destruct (id_truthy (current_sentence_id app)); [|kept].
    destruct (current_sentence_id app) eqn:Hcur; [left; eauto|kept].
  - unfold _handle_export. destruct (PyStr.truthy file_path); [|kept].
    destruct io; kept.
  - unfold _handle_reset. destruct confirmed; [left; eauto|kept].
  - kept.
Qed.

Lemma dispatch_current_ok ev app :
  current_ok app -> current_ok (dispatch ev app).
Proof.
  intros H. destruct (dispatch_reloads_or_keeps ev app)
    as [(rand & app0 & ->)|(H1 & H2 & _ & H3 & H4)].
  - apply load_next_sentence_current_ok.
  - now apply (current_ok_same app).
Qed.

Lemma dispatch_progress_ok ev app :
  progress_ok app -> progress_ok (dispatch ev app).
Proof.
  intros H. destruct (dispatch_reloads_or_keeps ev app)
    as [(rand & app0 & ->)|(H1 & _ & H2 & _)].
  - apply load_next_sentence_progress_ok.
  - now apply (progress_ok_same app).
Qed.

End ControllerInvariants.



(** ** The store under the handlers *)

Lemma store_ok_ids_same db db' :
  map id db' = map id db ->
  (forall r, In r db' -> rewrite r <> None -> seen r = true) ->
  store_ok db -> store_ok db'.
Proof.
  intros Hids Hrs (Hnd & Hpos & _). unfold store_ok. rewrite Hids. auto.
Qed.

Lemma store_ok_mark now i db :
  store_ok db -> store_ok (mark_sentence_seen now i db).
Proof.
  intros H. apply (store_ok_ids_same db); [apply update_seen_ids| |exact H].
  destruct H as (_ & _ & Hrs). intros r Hr Hw.
  unfold mark_sentence_seen, update_seen in Hr.
  apply in_map_iff in Hr as (r0 & <- & Hr0).
  destruct (id r0 =? i); [reflexivity|now apply Hrs].
Qed.

Lemma store_ok_save_mark now_save now_seen i text db :
  store_ok db ->
  store_ok (mark_sentence_seen now_seen i (save_rewrite now_save i text db)).
Proof.
  intros H. apply (store_ok_ids_same db); [| |exact H].
  - unfold mark_sentence_seen, save_rewrite.
    now rewrite update_seen_ids, update_rewrite_ids.
  - destruct H as (_ & _ & Hrs). intros r Hr Hw.
    unfold mark_sentence_seen, update_seen in Hr.
    apply in_map_iff in Hr as (r1 & <- & Hr1).
    unfold save_rewrite, update_rewrite in Hr1.
    apply in_map_iff in Hr1 as (r0 & <- & Hr0).
    destruct (id r0 =? i) eqn:E; simpl in *.
    + rewrite E. reflexivity.
    + rewrite E in *. now apply Hrs.
Qed.

Lemma store_ok_reset db : store_ok db -> store_ok (reset_session db).
Proof.
  intros H. apply (store_ok_ids_same db); [apply update_reset_ids| |exact H].
  intros r Hr Hw. unfold reset_session, update_reset in Hr.
  apply in_map_iff in Hr as (r0 & <- & _). simpl in Hw. contradiction.
Qed.

Lemma store_ok_import src fault now db :
  store_ok db -> store_ok (snd (import_csv src fault now db)).
Proof.
  intros (Hnd & Hpos & Hrs). split; [|split].
  - now apply import_csv_ids_NoDup.
  - exact (step_ids_positive (OpImport src fault now) db Hpos).
  - destruct (import_csv_extends src fault now db) as (extra & -> & Hf & _).
    intros r Hr Hw. apply in_app_or in Hr as [Hr|Hr]; [now apply Hrs|].
    rewrite Forall_forall in Hf. destruct (Hf r Hr) as (_ & H & _).
    contradiction.
Qed.

Lemma dispatch_store_ok ev app :
  store_ok (model app) -> store_ok (model (dispatch ev app)).
Proof.
  intros H.
  destruct ev as [file_path src fault now rand|now_save now_seen rand|now rand
                  |file_path io|confirmed rand|text]; simpl dispatch.
  - unfold _handle_import. destruct (PyStr.truthy file_path); [|exact H].
    pose proof (store_ok_import src fault now (model app) H) as H'.
    destruct (import_csv src fault now (model app)) as [[n|e] db'];
      [rewrite load_next_sentence_model|]; exact H'.
  - unfold _handle_save.
    destruct (negb (id_truthy (current_sentence_id app))); [exact H|].
    destruct (negb (PyStr.truthy (get_rewrite_text (view app)))); [exact H|].
    destruct (current_sentence_id app); [|exact H].
    rewrite load_next_sentence_model. now apply store_ok_save_mark.
  - unfold _handle_skip.
    destruct (id_truthy (current_sentence_id app)); [|exact H].
    destruct (current_sentence_id app); [|exact H].
    rewrite load_next_sentence_model. now apply store_ok_mark.
  - unfold _handle_export. destruct (PyStr.truthy file_path); [|exact H].
    destruct io; exact H.
  - unfold _handle_reset. destruct confirmed; [|exact H].
    rewrite load_next_sentence_model. now apply store_ok_reset.
  - exact H.
Qed.

Lemma mainloop_store_ok events :
  forall app, store_ok (model app) -> store_ok (model (mainloop events app)).
Proof.
  unfold mainloop. induction events as [|ev events IH]; intros app H; simpl;
    [exact H|].
  apply IH. now apply dispatch_store_ok.
Qed.



(** ** Save and skip, counted *)

Section Counting.

Lemma count_rewritten_cons r t :
  count_rewritten (r :: t)
  = (if is_not_null (rewrite r) then 1 else 0) + count_rewritten t.
Proof.
  unfold count_rewritten. simpl. destruct (is_not_null (rewrite r));
    simpl List.length; lia.
Qed.

Lemma update_rewrite_missing now i text t :
  ~ In i (map id t) -> update_rewrite now i text t = t.
Proof.
  intros Hi. unfold update_rewrite. rewrite <- (map_id t) at 2.
  apply map_ext_in. intros r Hr.
  destruct (Z.eqb_spec (id r) i) as [He|]; [|reflexivity].
  exfalso. apply Hi. rewrite <- He. now apply in_map.
Qed.

Lemma update_seen_missing now i t :
  ~ In i (map id t) -> update_seen now i t = t.
Proof.
  intros Hi. unfold update_seen. rewrite <- (map_id t) at 2.
  apply map_ext_in. intros r Hr.
  destruct (Z.eqb_spec (id r) i) as [He|]; [|reflexivity].
  exfalso. apply Hi. rewrite <- He. now apply in_map.
Qed.

(** Saving the rewrite of the one record of id [i], which had none, adds
    one to the completed count. *)
Lemma count_rewritten_save now i text t r :
  NoDup (map id t) -> In r t -> id r = i -> rewrite r = None ->
  count_rewritten (update_rewrite now i text t) = count_rewritten t + 1.
Proof.
  induction t as [|r0 t IH]; intros Hnd Hr Hid Hw; [destruct Hr|].
  simpl in Hnd. inversion Hnd as [|? ? Hr0 Ht]; subst.
  change (update_rewrite now (id r) text (r0 :: t))
    with ((if id r0 =? id r
           then mkSentence (id r0) (original r0) (Some text) (seen r0)
                           (created_at r0) (Some now)
           else r0) :: update_rewrite now (id r) text t).
  rewrite !count_rewritten_cons.
  destruct (Z.eqb_spec (id r0) (id r)) as [He|Hne].
  - assert (r = r0).
    { destruct Hr as [Hr|Hr]; [now symmetry|]. exfalso. apply Hr0.
      rewrite He. now apply in_map. }
    subst r0. rewrite Hw. cbn -[Z.add].
    rewrite update_rewrite_missing by assumption. lia.
  - destruct Hr as [Hr|Hr]; [congruence|].
    rewrite (IH Ht Hr eq_refl Hw). lia.
Qed.

Lemma count_rewritten_update_seen now i t :
  count_rewritten (update_seen now i t) = count_rewritten t.
Proof.
  induction t as [|r t IH]; [reflexivity|].
  change (update_seen now i (r :: t))
    with ((if id r =? i
           then mkSentence (id r) (original r) (rewrite r) true
                           (created_at r) (Some now)
           else r) :: update_seen now i t).
  rewrite !count_rewritten_cons, IH. now destruct (id r =? i).
Qed.

Lemma select_unseen_update_rewrite now i text t :
  select_unseen (update_rewrite now i text t) = select_unseen t.
Proof.
  unfold select_unseen, update_rewrite.
  induction t as [|r t IH]; simpl; [reflexivity|].
  destruct (id r =? i); simpl; destruct (seen r); simpl; now rewrite IH.
Qed.

(** Marking the one record of id [i], which was unseen, takes one record
    out of the unseen ones. *)
Lemma select_unseen_mark now i t r :
  NoDup (map id t) -> In r t -> id r = i -> seen r = false ->
  S (List.length (select_unseen (update_seen now i t)))
  = List.length (select_unseen t).
Proof.
  induction t as [|r0 t IH]; intros Hnd Hr Hid Hs; [destruct Hr|].
  simpl in Hnd. inversion Hnd as [|? ? Hr0 Ht]; subst.
  unfold select_unseen in *. simpl.
  destruct (Z.eqb_spec (id r0) (id r)) as [He|Hne].
  - assert (r = r0).
    { destruct Hr as [Hr|Hr]; [now symmetry|]. exfalso. apply Hr0.
      rewrite He. now apply in_map. }
    subst r0. rewrite Hs. simpl.
    fold (update_seen now (id r) t). now rewrite update_seen_missing.
  - destruct Hr as [Hr|Hr]; [congruence|].
    destruct (seen r0); simpl; rewrite <- (IH Ht Hr eq_refl Hs); reflexivity.
Qed.

Lemma current_ok_record app i :
  store_ok (model app) -> current_ok app -> current_sentence_id app = Some i ->
  i <> 0 /\
  exists r, In r (model app) /\ id r = i /\ seen r = false /\ rewrite r = None.
Proof.
  intros (Hnd & Hpos & Hrs) Hc Hi. unfold current_ok in Hc. rewrite Hi in Hc.
  destruct (current_sentence_text app) as [text|]; [|contradiction].
  destruct Hc as (_ & r & Hr & Hid & _ & Hs).
  split.
  - rewrite Forall_forall in Hpos.
    assert (0 < i) by (apply Hpos; rewrite <- Hid; now apply in_map). lia.
  - exists r. repeat split; try assumption.
    destruct (rewrite r) eqn:Hw; [|reflexivity].
    assert (seen r = true) by (apply Hrs; [assumption|congruence]). congruence.
Qed.

Lemma handle_save_reloads now_save now_seen rand app i :
  current_sentence_id app = Some i -> i <> 0 ->
  PyStr.strip (rewrite_text (view app)) <> EmptyString ->
  _handle_save now_save now_seen rand app
  = _load_next_sentence rand
      (mkController
         (mark_sentence_seen now_seen i
            (save_rewrite now_save i (PyStr.strip (rewrite_text (view app)))
               (model app)))
         (clear_rewrite_text (view app))
         (current_sentence_id app) (current_sentence_text app)).
Proof.
  intros Hi Hne Ht. unfold _handle_save. rewrite Hi. unfold id_truthy.
  destruct (Z.eqb_spec i 0); [contradiction|]. simpl negb. cbv iota.
  rewrite get_rewrite_text_strip.
  destruct (PyStr.truthy _) eqn:E; [reflexivity|].
  apply truthy_false in E. contradiction.
Qed.

Lemma handle_skip_reloads now rand app i :
  current_sentence_id app = Some i -> i <> 0 ->
  _handle_skip now rand app
  = _load_next_sentence rand
      (mkController (mark_sentence_seen now i (model app))
                    (clear_rewrite_text (view app))
                    (current_sentence_id app) (current_sentence_text app)).
Proof.
  intros Hi Hne. unfold _handle_skip. rewrite Hi. unfold id_truthy.
  destruct (Z.eqb_spec i 0); [contradiction|]. reflexivity.
Qed.

Lemma load_next_sentence_view rand app :
  rewrite_text (view (_load_next_sentence rand app)) = rewrite_text (view app) /\
  dialogs (view (_load_next_sentence rand app)) = dialogs (view app) /\
  progress (view (_load_next_sentence rand app))
  = (count_rewritten (model app), count_all (model app)).
Proof.
  unfold _load_next_sentence.
  destruct (get_random_unseen_sentence rand (model app)) as [[j text]|];
    repeat split.
Qed.

(** After a reload on a store where every record of id [i] is seen, the
    current sentence is not [i]. *)
Lemma load_next_sentence_not_seen rand app i :
  (forall r, In r (model app) -> id r = i -> seen r = true) ->
  current_sentence_id (_load_next_sentence rand app) <> Some i.
Proof.
  intros H. unfold _load_next_sentence.
  destruct (get_random_unseen_sentence rand (model app)) as [[j text]|] eqn:E;
    simpl; [|discriminate].
  intros Hj. injection Hj as ->.
  apply get_random_unseen_sentence_unseen in E as (r & Hr & Hid & _ & Hs).
  rewrite (H r Hr Hid) in Hs. discriminate.
Qed.

End Counting.

(** X16: Save and Next completes exactly one sentence.  With a current
    sentence and a rewrite text that is not blank, the completed count
    grows by one and the total stays, the label shows both, the unseen
    records are one fewer, the rewrite area is emptied, no dialog is
    shown, and the next current sentence is another record. *)
Theorem handle_save_completes_one :
  forall (now_save now_seen : timestamp) (rand : nat -> Z) (app : Controller)
         (i : Z),
    store_ok (model app) -> current_ok app ->
    current_sentence_id app = Some i ->
    PyStr.strip (rewrite_text (view app)) <> EmptyString ->
    get_progress_stats (model (_handle_save now_save now_seen rand app))
    = (fst (get_progress_stats (model app)),
       snd (get_progress_stats (model app)) + 1) /\
    progress (view (_handle_save now_save now_seen rand app))
    = (snd (get_progress_stats (model app)) + 1,
       fst (get_progress_stats (model app))) /\
    S (List.length
         (select_unseen (model (_handle_save now_save now_seen rand app))))
    = List.length (select_unseen (model app)) /\
    rewrite_text (view (_handle_save now_save now_seen rand app)) = EmptyString /\
    dialogs (view (_handle_save now_save now_seen rand app))
    = dialogs (view app) /\
    current_sentence_id (_handle_save now_save now_seen rand app) <> Some i.
Proof.
  intros now_save now_seen rand app i Hok Hc Hi Ht.
  destruct (current_ok_record app i Hok Hc Hi) as (Hne & r & Hr & Hid & Hs & Hw).
  destruct Hok as (Hnd & _ & _).
  rewrite (handle_save_reloads now_save now_seen rand app i Hi Hne Ht).
  set (text := PyStr.strip (rewrite_text (view app))).
  rewrite load_next_sentence_model. simpl model.
  destruct (load_next_sentence_view rand
              (mkController
                 (mark_sentence_seen now_seen i
                    (save_rewrite now_save i text (model app)))
                 (clear_rewrite_text (view app))
                 (current_sentence_id app) (current_sentence_text app)))
    as (Hv1 & Hv2 & Hv3).
  rewrite Hv1, Hv2, Hv3. simpl model.
  assert (Hcount : count_rewritten
                     (mark_sentence_seen now_seen i
                        (save_rewrite now_save i text (model app)))
                   = count_rewritten (model app) + 1).
  { unfold mark_sentence_seen, save_rewrite.
    rewrite count_rewritten_update_seen.
    now apply (count_rewritten_save now_save i text (model app) r). }
  assert (Hall : count_all
                   (mark_sentence_seen now_seen i
                      (save_rewrite now_save i text (model app)))
                 = count_all (model app)).
  { unfold count_all, mark_sentence_seen, save_rewrite.
    now rewrite update_seen_length, update_rewrite_length. }
  unfold get_progress_stats. rewrite Hcount, Hall. simpl fst. simpl snd.
  repeat split.
  - unfold mark_sentence_seen, save_rewrite.
    assert (Hr' : In (mkSentence (id r) (original r) (Some text) (seen r)
                                 (created_at r) (Some now_save))
                     (update_rewrite now_save i text (model app))).
    { unfold update_rewrite. apply in_map_iff. exists r.
      rewrite (proj2 (Z.eqb_eq _ _) Hid). auto. }
    assert (Hnd' : NoDup (map id (update_rewrite now_save i text (model app))))
      by now rewrite update_rewrite_ids.
    rewrite (select_unseen_mark now_seen i _ _ Hnd' Hr' Hid Hs).
    now rewrite select_unseen_update_rewrite.
  - apply load_next_sentence_not_seen. simpl model.
    intros r1 Hr1 Hid1.
    unfold mark_sentence_seen, update_seen in Hr1.
    apply in_map_iff in Hr1 as (r0 & <- & _).
    destruct (id r0 =? i) eqn:E; [reflexivity|].
    simpl in Hid1. apply Z.eqb_neq in E. contradiction.
Qed.

Lemma sample_app_ok : store_ok (model sample_app) /\ current_ok sample_app.
Proof.
  split.
  - split; [|split].
    + simpl. repeat constructor. intros [].
    + simpl. repeat constructor.
    + intros r [<-|[]] H. now contradiction H.
  - split; [reflexivity|]. exists sample_row. simpl. auto.
Defined.

Lemma handle_save_completes_one_witness :
  store_ok (model sample_app) /\ current_ok sample_app /\
  current_sentence_id sample_app = Some 1 /\
  PyStr.strip (rewrite_text (view sample_app)) <> EmptyString /\
  get_progress_stats (model (_handle_save "t1" "t2" (favour 0) sample_app))
  = (1, 1).
Proof.
  assert (Ht : PyStr.strip (rewrite_text (view sample_app)) <> EmptyString)
    by discriminate.
  split; [exact (proj1 sample_app_ok)|]. split; [exact (proj2 sample_app_ok)|].
  split; [reflexivity|]. split; [exact Ht|].
  exact (proj1 (handle_save_completes_one "t1" "t2" (favour 0) sample_app 1
                  (proj1 sample_app_ok) (proj2 sample_app_ok) eq_refl Ht)).
Defined.

(** X17: Skip completes nothing.  With a current sentence, skipping
    leaves the statistics and every rewrite of the store as they are,
    takes the record out of the unseen ones, empties the rewrite area,
    whatever was typed there, and moves on to another record. *)
Theorem handle_skip_completes_none :
  forall (now : timestamp) (rand : nat -> Z) (app : Controller) (i : Z),
    store_ok (model app) -> current_ok app ->
    current_sentence_id app = Some i ->
    get_progress_stats (model (_handle_skip now rand app))
    = get_progress_stats (model app) /\
    map rewrite (model (_handle_skip now rand app)) = map rewrite (model app) /\
    S (List.length (select_unseen (model (_handle_skip now rand app))))
    = List.length (select_unseen (model app)) /\
    rewrite_text (view (_handle_skip now rand app)) = EmptyString /\
    current_sentence_id (_handle_skip now rand app) <> Some i.
Proof.
  intros now rand app i Hok Hc Hi.
  destruct (current_ok_record app i Hok Hc Hi) as (Hne & r & Hr & Hid & Hs & _).
  destruct Hok as (Hnd & _ & _).
  rewrite (handle_skip_reloads now rand app i Hi Hne).
  rewrite load_next_sentence_model. simpl model.
  destruct (load_next_sentence_view rand
              (mkController (mark_sentence_seen now i (model app))
                 (clear_rewrite_text (view app))
                 (current_sentence_id app) (current_sentence_text app)))
    as (Hv1 & _ & _).
  rewrite Hv1. unfold mark_sentence_seen. repeat split.
  - unfold get_progress_stats, count_all.
    now rewrite count_rewritten_update_seen, update_seen_length.
  - unfold update_seen. rewrite map_map. apply map_ext.
    intros r0. now destruct (id r0 =? i).
  - now apply (select_unseen_mark now i (model app) r).
  - apply load_next_sentence_not_seen. simpl model.
    intros r1 Hr1 Hid1. unfold update_seen in Hr1.
    apply in_map_iff in Hr1 as (r0 & <- & _).
    destruct (id r0 =? i) eqn:E; [reflexivity|].
    simpl in Hid1. apply Z.eqb_neq in E. contradiction.
Qed.

Lemma handle_skip_completes_none_witness :
  store_ok (model sample_app) /\ current_ok sample_app /\
  current_sentence_id sample_app = Some 1 /\
  get_progress_stats (model (_handle_skip "t1" (favour 0) sample_app)) = (1, 0) /\
  rewrite_text (view (_handle_skip "t1" (favour 0) sample_app)) = EmptyString.
Proof.
  split; [exact (proj1 sample_app_ok)|]. split; [exact (proj2 sample_app_ok)|].
  split; [reflexivity|].
  destruct (handle_skip_completes_none "t1" (favour 0) sample_app 1
              (proj1 sample_app_ok) (proj2 sample_app_ok) eq_refl)
    as (H1 & _ & _ & H2 & _).
  split; [exact H1|exact H2].
Defined.

(** X18: with nothing left to practise the two buttons do nothing.  When
    every record of the store is seen, or the store is empty, Save and
    Next and Skip leave the application as it is: no record changes, no
    dialog is shown, not even for a blank rewrite, and a rewrite that was
    typed is neither saved nor cleared. *)
Theorem handlers_idle_when_exhausted :
  forall (now_save now_seen : timestamp) (rand : nat -> Z) (app : Controller),
    current_ok app ->
    (forall r, In r (model app) -> seen r = true) ->
    _handle_save now_save now_seen rand app = app /\
    _handle_skip now_seen rand app = app.
Proof.
  intros now_save now_seen rand app Hc Hall.
  assert (Hnone : current_sentence_id app = None).
  { unfold current_ok in Hc.
    destruct (current_sentence_id app) as [i|]; [|reflexivity].
    destruct (current_sentence_text app); [|contradiction].
    destruct Hc as (_ & r & Hr & _ & _ & Hs).
    rewrite (Hall r Hr) in Hs. discriminate. }
  unfold _handle_save, _handle_skip. rewrite Hnone. split; reflexivity.
Qed.

Lemma handlers_idle_when_exhausted_witness :
  current_ok (controller_init None (favour 0)) /\
  _handle_save "t1" "t2" (favour 0)
    (dispatch (EditRewrite "A cat sat.") (controller_init None (favour 0)))
  = dispatch (EditRewrite "A cat sat.") (controller_init None (favour 0)).
Proof.
  assert (H : current_ok
                (dispatch (EditRewrite "A cat sat.")
                          (controller_init None (favour 0)))).
  { split; [reflexivity|]. intros r []. }
  split; [split; [reflexivity|intros r []]|].
  apply (handlers_idle_when_exhausted "t1" "t2" (favour 0) _ H).
  intros r [].
Defined.

(** ** Import from the controller *)

(** X19: what [_handle_import] does.  When the file dialog is cancelled
    nothing changes.  When the import raises, the store, the current
    sentence, the sentence area, the rewrite area and the label are left as
    they are, and one error box titled Import Failed shows a message that
    begins with [Failed to import CSV: ].  When the import returns, the
    store is the one it built, one message box tells the count, the
    rewrite area keeps its text, and the display is reloaded. *)
Theorem handle_import_outcomes :
  forall (file_path : string) (src : outcome DataFrame)
         (fault : nat -> option exn) (now : nat -> timestamp)
         (rand : nat -> Z) (app : Controller),
    _handle_import EmptyString src fault now rand app = app /\
    (PyStr.truthy file_path = true ->
     forall e,
       fst (import_csv src fault now (model app)) = Raise e ->
       _handle_import file_path src fault now rand app
       = mkController (model app)
           (mkView (sentence_text (view app)) (rewrite_text (view app))
                   (progress (view app))
                   (dialogs (view app)
                    ++ [ShowError "Import Failed" (str_exn e)]))
           (current_sentence_id app) (current_sentence_text app) /\
       exists reason,
         str_exn e = ("Failed to import CSV: " ++ reason)%string) /\
    (PyStr.truthy file_path = true ->
     forall n,
       fst (import_csv src fault now (model app)) = Return n ->
       model (_handle_import file_path src fault now rand app)
       = snd (import_csv src fault now (model app)) /\
       dialogs (view (_handle_import file_path src fault now rand app))
       = dialogs (view app)
         ++ [ShowInfo "Import Successful"
               ("Successfully imported " ++ str_int n ++ " sentences.")%string] /\
       rewrite_text (view (_handle_import file_path src fault now rand app))
       = rewrite_text (view app) /\
       current_ok (_handle_import file_path src fault now rand app)).
Proof.
  intros file_path src fault now rand app. split; [reflexivity|]. split.
  - intros Hp e He. unfold _handle_import. rewrite Hp.
    destruct (import_csv src fault now (model app)) as [r db'] eqn:E.
    simpl in He. subst r.
    pose proof (import_csv_raise_unchanged _ _ _ _ _ _ E) as ->.
    split; [reflexivity|].
    unfold import_csv in E.
    destruct (import_csv_body src fault now (model app)) as [[m|e0] d];
      [discriminate|].
    injection E as <- _. simpl. eauto.
  - intros Hp n Hn. unfold _handle_import. rewrite Hp.
    destruct (import_csv src fault now (model app)) as [r db'] eqn:E.
    simpl in Hn. subst r. rewrite load_next_sentence_model. simpl model.
    split; [reflexivity|].
    destruct (load_next_sentence_view rand
                (mkController db'
                   (show_message "Import Successful"
                      ("Successfully imported " ++ str_int n ++ " sentences.")
                      (view app))
                   (current_sentence_id app) (current_sentence_text app)))
      as (Hv1 & Hv2 & _).
    rewrite Hv1, Hv2. repeat split. apply load_next_sentence_current_ok.
Qed.

Lemma handle_import_outcomes_witness :
  PyStr.truthy "sentences.csv" = true /\
  fst (import_csv (Return (mkFrame ["Sentence"] [[CText "Birds sing."]]))
                  no_fault sample_clock (model sample_app))
  = Raise (Exception
             "Failed to import CSV: CSV must contain a 'sentence' column") /\
  model (_handle_import "sentences.csv"
           (Return (mkFrame ["Sentence"] [[CText "Birds sing."]]))
           no_fault sample_clock (favour 0) sample_app)
  = [sample_row] /\
  fst (import_csv (Return blank_line_frame) no_fault sample_clock
                  (model sample_app))
  = Return 1 /\
  dialogs (view (_handle_import "sentences.csv" (Return blank_line_frame)
                   no_fault sample_clock (favour 0) sample_app))
  = [ShowInfo "Import Successful" "Successfully imported 1 sentences."].
Proof.
  split; [reflexivity|]. split; [reflexivity|]. split.
  - rewrite (proj1 (proj1 (proj2 (handle_import_outcomes "sentences.csv"
               (Return (mkFrame ["Sentence"] [[CText "Birds sing."]]))
               no_fault sample_clock (favour 0) sample_app))
             eq_refl _ eq_refl)).
    reflexivity.
  - split; [reflexivity|].
    exact (proj1 (proj2 (proj2 (proj2 (handle_import_outcomes "sentences.csv"
              (Return blank_line_frame) no_fault sample_clock (favour 0)
              sample_app)) eq_refl 1 eq_refl))).
Defined.

(** ** Reset from the controller *)

(** X20: what [_handle_reset] does.  Declined, it changes nothing.
    Confirmed, it leaves no record seen and none with a rewrite, the label
    shows 0 of the unchanged total, the rewrite area is emptied, and a
    sentence is on display exactly when the store has a record. *)
Theorem handle_reset_outcomes :
  forall (rand : nat -> Z) (app : Controller),
    _handle_reset false rand app = app /\
    model (_handle_reset true rand app) = reset_session (model app) /\
    progress (view (_handle_reset true rand app))
    = (0, fst (get_progress_stats (model app))) /\
    rewrite_text (view (_handle_reset true rand app)) = EmptyString /\
    (current_sentence_id (_handle_reset true rand app) = None <->
     model app = []) /\
    current_ok (_handle_reset true rand app).
Proof.
  intros rand app. split; [reflexivity|]. unfold _handle_reset.
  rewrite load_next_sentence_model. simpl model. split; [reflexivity|].
  destruct (load_next_sentence_view rand
              (mkController (reset_session (model app))
                 (clear_rewrite_text (view app))
                 (current_sentence_id app) (current_sentence_text app)))
    as (Hv1 & _ & Hv3).
  rewrite Hv1, Hv3. simpl model. split; [|split; [reflexivity|split]].
  - unfold reset_session. rewrite count_rewritten_reset.
    unfold count_all. now rewrite update_reset_length.
  - unfold _load_next_sentence. simpl model.
    destruct (get_random_unseen_sentence rand (reset_session (model app)))
      as [[j text]|] eqn:E; simpl.
    + split; [discriminate|]. intros Hm. rewrite Hm in E. discriminate.
    + split; [|reflexivity]. intros _.
      unfold get_random_unseen_sentence in E.
      apply order_by_random_nil in E. unfold reset_session in E.
      rewrite select_unseen_reset in E.
      destruct (model app); [reflexivity|discriminate].
  - apply load_next_sentence_current_ok.
Qed.

(** * Properties of [error_handling.py] *)

Section Substrings.

Import ErrorHandler.

Lemma starts_with_iff needle hay :
  starts_with needle hay = true <-> exists post, hay = (needle ++ post)%string.
Proof.
  revert hay. induction needle as [|a needle IH]; intros hay; simpl.
  - split; [intros _; now exists hay|reflexivity].
  - destruct hay as [|b hay].
    + split; [discriminate|]. intros (post & H). discriminate.
    + rewrite andb_true_iff, Ascii.eqb_eq, IH. split.
      * intros (-> & post & ->). now exists post.
      * intros (post & H). injection H as -> ->. split; [reflexivity|].
        now exists post.
Qed.

(** [needle in hay] holds exactly when [hay] is some text, then [needle],
    then some text. *)
Lemma contains_iff needle hay :
  contains needle hay = true <->
  exists pre post, hay = (pre ++ needle ++ post)%string.
Proof.
  induction hay as [|b hay IH].
  - simpl. rewrite orb_false_r, starts_with_iff. split.
    + intros (post & H). now exists EmptyString, post.
    + intros (pre & post & H). destruct pre; [now exists post|discriminate].
  - change (contains needle (String b hay))
      with (starts_with needle (String b hay) || contains needle hay).
    rewrite orb_true_iff, starts_with_iff, IH. split.
    + intros [(post & H)|(pre & post & H)].
      * now exists EmptyString, post.
      * exists (String b pre), post. simpl. now rewrite H.
    + intros (pre & post & H). destruct pre as [|c pre].
      * left. now exists post.
      * right. simpl in H. injection H as _ H. now exists pre, post.
Qed.

End Substrings.

Lemma ErrorHandler_contains words (error : ErrorHandler.py_error) :
  ErrorHandler.contains words (ErrorHandler.text error) = true <->
  exists pre post, ErrorHandler.text error = (pre ++ words ++ post)%string.
Proof. apply contains_iff. Qed.

(** X21: how [handle_database_error] chooses its message.  For an
    [OperationalError] whose text has [no such table] in it the message
    asks to restart, whatever else the text has; otherwise, when the text
    has [database is locked] in it, the message says the database is
    busy; every other error, and every error of another class even with
    these words in its text, gets [Database operation failed: ] followed by
    the text of the error.  The line printed always carries the operation
    and the text. *)
Theorem handle_database_error_message :
  forall (error : ErrorHandler.py_error) (operation : string),
    let has := fun words =>
      exists pre post,
        ErrorHandler.text error = (pre ++ words ++ post)%string in
    fst (ErrorHandler.handle_database_error error operation)
    = ("ERROR: Database error during " ++ operation ++ ": "
       ++ ErrorHandler.text error)%string /\
    (ErrorHandler.cls error = ErrorHandler.ClsOperationalError ->
     has "no such table" ->
     snd (ErrorHandler.handle_database_error error operation)
     = "Database structure error. Please restart the application.") /\
    (ErrorHandler.cls error = ErrorHandler.ClsOperationalError ->
     ~ has "no such table" -> has "database is locked" ->
     snd (ErrorHandler.handle_database_error error operation)
     = "Database is busy. Please try again.") /\
    (ErrorHandler.cls error <> ErrorHandler.ClsOperationalError \/
     (~ has "no such table" /\ ~ has "database is locked") ->
     snd (ErrorHandler.handle_database_error error operation)
     = ("Database operation failed: " ++ ErrorHandler.text error)%string).
Proof.
  intros error operation has. unfold ErrorHandler.handle_database_error.
  cbv zeta. simpl fst. simpl snd. split; [reflexivity|].
  split; [|split].
  - intros -> Hn. apply ErrorHandler_contains in Hn. now rewrite Hn.
  - intros -> Hn Hl. apply ErrorHandler_contains in Hl. rewrite Hl.
    destruct (ErrorHandler.contains "no such table" _) eqn:E; [|reflexivity].
    apply ErrorHandler_contains in E. contradiction.
  - intros [Hc|[Hn Hl]].
    + destruct (ErrorHandler.cls error); try reflexivity. contradiction.
    + destruct (ErrorHandler.contains "no such table" _) eqn:E1;
        [apply ErrorHandler_contains in E1; contradiction|].
      destruct (ErrorHandler.contains "database is locked" _) eqn:E2;
        [apply ErrorHandler_contains in E2; contradiction|].
      now destruct (ErrorHandler.cls error).
Qed.

Lemma handle_database_error_message_witness :
  ErrorHandler.cls
    (ErrorHandler.mkError ErrorHandler.ClsOperationalError
                          "no such table: sentences")
  = ErrorHandler.ClsOperationalError /\
  (exists pre post,
     "no such table: sentences" = (pre ++ "no such table" ++ post)%string) /\
  snd (ErrorHandler.handle_database_error
         (ErrorHandler.mkError ErrorHandler.ClsOperationalError
                               "no such table: sentences")
         "mark_sentence_seen")
  = "Database structure error. Please restart the application.".
Proof.
  assert (H : exists pre post,
            "no such table: sentences" = (pre ++ "no such table" ++ post)%string)
    by (exists EmptyString, ": sentences"; reflexivity).
  split; [reflexivity|]. split; [exact H|].
  exact (proj1 (proj2 (handle_database_error_message
           (ErrorHandler.mkError ErrorHandler.ClsOperationalError
                                 "no such table: sentences")
           "mark_sentence_seen")) eq_refl H).
Defined.

(** X22: [handle_import_error] reports a missing pandas exactly when the
    text of the error has [pandas] in it, in lower case and anywhere; every
    other error gets [Import operation failed: ] followed by its text. *)
Theorem handle_import_error_message :
  forall (error : ErrorHandler.py_error) (operation : string),
    ((exists pre post,
        ErrorHandler.text error = (pre ++ "pandas" ++ post)%string) ->
     snd (ErrorHandler.handle_import_error error operation)
     = "Pandas library not available. CSV import/export features disabled.") /\
    (~ (exists pre post,
          ErrorHandler.text error = (pre ++ "pandas" ++ post)%string) ->
     snd (ErrorHandler.handle_import_error error operation)
     = ("Import operation failed: " ++ ErrorHandler.text error)%string).
Proof.
  intros error operation. unfold ErrorHandler.handle_import_error.
  cbv zeta. simpl snd.
  split.
  - intros Hp. apply ErrorHandler_contains in Hp. now rewrite Hp.
  - intros Hp. destruct (ErrorHandler.contains "pandas" _) eqn:E;
      [|reflexivity].
    apply ErrorHandler_contains in E. contradiction.
Qed.

Lemma handle_import_error_message_witness :
  (exists pre post,
     "No module named 'pandas'" = (pre ++ "pandas" ++ post)%string) /\
  snd (ErrorHandler.handle_import_error
         (ErrorHandler.mkError ErrorHandler.ClsOther "No module named 'pandas'")
         "import_csv")
  = "Pandas library not available. CSV import/export features disabled.".
Proof.
  assert (H : exists pre post,
            "No module named 'pandas'" = (pre ++ "pandas" ++ post)%string)
    by (exists "No module named '", "'"; reflexivity).
  split; [exact H|].
  exact (proj1 (handle_import_error_message
           (ErrorHandler.mkError ErrorHandler.ClsOther "No module named 'pandas'")
           "import_csv") H).
Defined.

(** ** The decorators *)

Lemma kwargs_get_absent key kwargs d :
  (forall v, ~ In (key, v) kwargs) ->
  ErrorHandler.kwargs_get key kwargs d = d.
Proof.
  induction kwargs as [|[k v] kw IH]; intros H; [reflexivity|].
  simpl. destruct (String.eqb_spec k key) as [->|_].
  - exfalso. apply (H v). now left.
  - apply IH. intros v' Hv'. apply (H v'). now right.
Qed.

Lemma show_on_first_window_spec title message args :
  (List.length (ErrorHandler.show_on_first_window title message args) <= 1)%nat /\
  (forall w t m,
     In (w, t, m) (ErrorHandler.show_on_first_window title message args) ->
     t = title /\ m = message /\
     exists before after,
       args = before ++ ErrorHandler.ArgWindow w :: after /\
       Forall (fun a => a = ErrorHandler.ArgOther) before) /\
  (ErrorHandler.show_on_first_window title message args = [] <->
   Forall (fun a => a = ErrorHandler.ArgOther) args).
Proof.
  induction args as [|[w0|] args (IH1 & IH2 & IH3)]; simpl.
  - split; [lia|]. split; [intros w t m []|]. split; auto.
  - split; [lia|]. split.
    + intros w t m [H|[]]. injection H as -> -> ->.
      split; [reflexivity|]. split; [reflexivity|]. exists [], args. auto.
    + split; [discriminate|]. intros H. inversion H; discriminate.
  - split; [exact IH1|]. split.
    + intros w t m H. destruct (IH2 w t m H) as (-> & -> & b & a & -> & Hb).
      split; [reflexivity|]. split; [reflexivity|].
      exists (ErrorHandler.ArgOther :: b), a. auto.
    + rewrite IH3. split; [auto|]. intros H. now inversion H.
Qed.


